(** * Running verdict: a shallow embedding of [api/run-verdict.js] and its
      sibling variants.

    JavaScript numbers are modelled by [number]: the three non-finite
    doubles are kept apart, and a finite double is represented by the
    rational it denotes.  Comparisons of doubles are exact; an
    arithmetic operation on doubles gives the exact result rounded to the
    nearest double, ties to even ([Double.fl]); a decimal literal of the
    program denotes the double nearest to it ([Double.dbl]), which is the
    decimal itself for the integer thresholds. *)

From Stdlib Require Import ZArith QArith Qround List String Ascii Bool Lia.
From Stdlib Require Import DecimalString Lqa Floats Qpower Qabs.
Import ListNotations.
Local Open Scope Z_scope.
Set Warnings "-inexact-float".

(** ** JavaScript values *)

Module Js.

Inductive number : Type :=
| NaN
| PosInf
| NegInf
| Fin (q : Q).

(** The values that a parsed JSON document, an array read or a missing
    property can hand to the helpers. *)
Inductive value : Type :=
| VUndefined
| VNull
| VBool (b : bool)
| VNum (n : number)
| VStr (s : string).

(** [Number.isFinite(v)]: no coercion, only a finite number passes. *)
Definition Number_isFinite (v : value) : bool :=
  match v with
  | VNum (Fin _) => true
  | _ => false
  end.

(** [x >= y] and [x <= y] on numbers; a comparison with NaN is false. *)
Definition num_ge (x y : number) : bool :=
  match x, y with
  | NaN, _ | _, NaN => false
  | PosInf, _ => true
  | _, NegInf => true
  | NegInf, _ => false
  | _, PosInf => false
  | Fin a, Fin b => Qle_bool b a
  end.

Definition num_le (x y : number) : bool := num_ge y x.

(** [ToBoolean], as used by [if (v)] and [v || w]. *)
Definition ToBoolean (v : value) : bool :=
  match v with
  | VUndefined | VNull => false
  | VBool b => b
  | VNum NaN => false
  | VNum (Fin q) => negb (Qeq_bool q 0)
  | VNum _ => true
  | VStr s => negb (String.eqb s EmptyString)
  end.

(** [v >= k] for a value [v] already known to be a number; the callers
    below guard it with [Number_isFinite], so the other branch is never
    the one that decides. *)
Definition ge_const (v : value) (k : Z) : bool :=
  match v with
  | VNum n => num_ge n (Fin (inject_Z k))
  | _ => false
  end.

Definition le_const (v : value) (k : Z) : bool :=
  match v with
  | VNum n => num_le n (Fin (inject_Z k))
  | _ => false
  end.

(** [Math.round] on a finite number: the nearest integer, a tie going
    up. *)
Definition Math_round (q : Q) : Z := Qfloor (q + (1 # 2)).

End Js.
Import Js.

(** ** Binary64 rounding

    The finite doubles are the rationals [m * 2^e] with [|m| < 2^53] and
    [e >= -1074], up to the largest one.  Rounding a rational to the
    nearest of them, ties to the even significand, takes the exponent of
    the rational (not below that of the subnormal range), scales by the
    spacing of the doubles there and rounds to an integer. *)

Module Double.

Local Open Scope Q_scope.

(** [floor (log2 x)] for a positive rational. *)
Definition ilog2 (x : Q) : Z :=
  let e0 := (Z.log2 (Qnum x) - Z.log2 (Zpos (Qden x)))%Z in
  if Qle_bool (2 ^ e0) x then e0 else (e0 - 1)%Z.

(** The nearest integer, a tie going to the even one. *)
Definition rne (x : Q) : Z :=
  let f := Qfloor x in
  match Qcompare (x - inject_Z f) (1 # 2) with
  | Lt => f
  | Gt => (f + 1)%Z
  | Eq => if Z.even f then f else (f + 1)%Z
  end.

(** The exponent of a positive rational as a double sees it, and the
    spacing of the doubles around it. *)
Definition expo (x : Q) : Z := Z.max (ilog2 x) (-1022).

Definition ulp (x : Q) : Q := 2 ^ (expo x - 52).

Definition flpos (x : Q) : Q := inject_Z (rne (x / ulp x)) * ulp x.

(** Round to nearest, ties to even, with unbounded exponent above. *)
Definition fl (x : Q) : Q :=
  match Qnum x with
  | Z0 => 0
  | Zpos _ => flpos x
  | Zneg _ => - flpos (- x)
  end.

(** The double that a decimal literal denotes. *)
Definition dbl (q : Q) : Q := fl q.

(** The four operations on finite doubles, where the result does not
    overflow. *)
Definition add64 (a b : Q) : Q := fl (a + b).
Definition sub64 (a b : Q) : Q := fl (a - b).
Definition mul64 (a b : Q) : Q := fl (a * b).
Definition div64 (a b : Q) : Q := fl (a / b).

(** The largest finite double, and rounding with overflow to an
    infinity. *)
Definition maxDouble : Q := inject_Z ((2 ^ 53 - 1) * 2 ^ 971).

Definition round64 (q : Q) : number :=
  let r := fl q in
  if Qle_bool (Qabs r) maxDouble then Fin r
  else if Qle_bool 0 q then PosInf else NegInf.

End Double.
Import Double.

(** ** The verdict engine ([verdictForAsthma], api/run-verdict.js) *)

Inductive icon : Type := Red | Yellow | Green.

Record Verdict : Type := mkVerdict { v_icon : icon; v_text : string }.

Record Reading : Type := mkReading {
  tempC : value;
  rh : value;
  windKmh : value;
  aqi : value
}.

Definition IndoorOnly : Verdict := mkVerdict Red "Indoor only".
Definition Caution : Verdict := mkVerdict Yellow "Caution".
Definition SafeToRun : Verdict := mkVerdict Green "Safe to run".

Definition verdictForAsthma (r : Reading) : Verdict :=
  if Number_isFinite (aqi r) && ge_const (aqi r) 101 then IndoorOnly
  else if Number_isFinite (aqi r) && ge_const (aqi r) 51 then
    if Number_isFinite (tempC r) && ge_const (tempC r) 32 then IndoorOnly
    else Caution
  else if Number_isFinite (tempC r) && ge_const (tempC r) 32 then IndoorOnly
  else if (Number_isFinite (tempC r) && ge_const (tempC r) 28)
          || (Number_isFinite (rh r) && ge_const (rh r) 75) then Caution
  else SafeToRun.

(** ** Category of a numeric AQI ([aqiCategoryFromNumber]) *)

Definition aqiCategoryFromNumber (aqiVal : value) : string :=
  if negb (Number_isFinite aqiVal) then "Unknown"
  else if le_const aqiVal 50 then "Good"
  else if le_const aqiVal 100 then "Moderate"
  else if le_const aqiVal 150 then "Unhealthy for Sensitive Groups"
  else if le_const aqiVal 200 then "Unhealthy"
  else if le_const aqiVal 300 then "Very Unhealthy"
  else "Hazardous".

(** ** Arrays, exceptions and the two scanning loops *)

Inductive result (A : Type) : Type :=
| Ok (a : A)
| Throw (e : string).
Arguments Ok {A} a.
Arguments Throw {A} e.

(** [arr.length] and [arr[i]]; a read out of range gives [undefined]. *)
Definition len (arr : list value) : Z := Z.of_nat (List.length arr).

Definition index (arr : list value) (i : Z) : value :=
  if i <? 0 then VUndefined else nth (Z.to_nat i) arr VUndefined.

(** [o || []] for a property that is an array or is missing. *)
Definition orEmpty (o : option (list value)) : list value :=
  match o with
  | Some a => a
  | None => []
  end.

(** [times.findIndex(t => t.startsWith(targetISO))]: the index of the
    first match, [-1] when there is none.  Calling [startsWith] on an
    entry that is not a string raises a TypeError, and the entries are
    visited in order, so an earlier match hides a later bad entry. *)
Fixpoint findIndex_startsWith (targetISO : string) (times : list value)
    (i : Z) : result Z :=
  match times with
  | [] => Ok (-1)
  | VStr t :: rest =>
      if String.prefix targetISO t then Ok i
      else findIndex_startsWith targetISO rest (i + 1)
  | VNull :: _ =>
      Throw "TypeError: Cannot read properties of null (reading 'startsWith')"
  | VUndefined :: _ =>
      Throw
        "TypeError: Cannot read properties of undefined (reading 'startsWith')"
  | _ :: _ => Throw "TypeError: t.startsWith is not a function"
  end.

(** [for (let i = start; i >= 0; i--) if (p(i)) return i]. *)
Fixpoint countDown (p : Z -> bool) (n : nat) : option Z :=
  match n with
  | O => None
  | S m => if p (Z.of_nat m) then Some (Z.of_nat m) else countDown p m
  end.

Definition scanDown (p : Z -> bool) (start : Z) : option Z :=
  countDown p (Z.to_nat (start + 1)).

(** [for (let i = start; i < stop; i++) if (p(i)) return i]. *)
Fixpoint countUp (p : Z -> bool) (i : Z) (n : nat) : option Z :=
  match n with
  | O => None
  | S m => if p i then Some i else countUp p (i + 1) m
  end.

Definition scanUp (p : Z -> bool) (start stop : Z) : option Z :=
  countUp p start (Z.to_nat (stop - start)).

(** [i >= 0 && i < arr.length && Number.isFinite(arr[i])]. *)
Definition hasVal (arr : list value) (i : Z) : bool :=
  (0 <=? i) && (i <? len arr) && Number_isFinite (index arr i).

(** ** The air-quality document and [findNearestAqi] (api/run-verdict.js) *)

Record AqHourly : Type := mkAqHourly {
  aq_time : option (list value);
  us_aqi : option (list value);
  epa_health_concern : option (list value);
  pm2_5 : option (list value);
  pm10 : option (list value)
}.

(** [aqJson?.hourly]: [None] when the document is null or has no
    [hourly] property. *)
Record AqJson : Type := mkAqJson { aq_hourly : option AqHourly }.

Definition chain {A : Type} (o : option A) (f : A -> option (list value))
  : option (list value) :=
  match o with
  | Some a => f a
  | None => None
  end.

Record AqiInfo : Type := mkAqiInfo { info_aqi : value; info_category : string }.

Definition findNearestAqi (aqJson : AqJson) (targetISO : string)
  : result AqiInfo :=
  let times := orEmpty (chain (aq_hourly aqJson) aq_time) in
  let aqiArr := orEmpty (chain (aq_hourly aqJson) us_aqi) in
  match findIndex_startsWith targetISO times 0 with
  | Throw e => Throw e
  | Ok exactIdx =>
      let hit i :=
        mkAqiInfo (index aqiArr i) (aqiCategoryFromNumber (index aqiArr i)) in
      if hasVal aqiArr exactIdx then Ok (hit exactIdx)
      else
        match scanDown (hasVal aqiArr) (exactIdx - 1) with
        | Some i => Ok (hit i)
        | None =>
            match scanUp (hasVal aqiArr) (Z.max (exactIdx + 1) 0) (len times) with
            | Some i => Ok (hit i)
            | None => Ok (mkAqiInfo VNull "Unknown")
            end
        end
  end.

(** ** The variant with category labels (src/unnamed/part_001) *)

Module Labelled.

Definition aqiCategory (catStr aqiVal : value) : value :=
  if ToBoolean catStr then catStr
  else if negb (Number_isFinite aqiVal) then VStr "Unknown"
  else if le_const aqiVal 50 then VStr "Good"
  else if le_const aqiVal 100 then VStr "Moderate"
  else if le_const aqiVal 150 then VStr "Unhealthy for Sensitive Groups"
  else if le_const aqiVal 200 then VStr "Unhealthy"
  else if le_const aqiVal 300 then VStr "Very Unhealthy"
  else VStr "Hazardous".

Record AqiInfo : Type := mkAqiInfo { info_aqi : value; info_category : value }.

Definition findNearestAqi (aqJson : AqJson) (targetISO : string)
  : result AqiInfo :=
  let times := orEmpty (chain (aq_hourly aqJson) aq_time) in
  let aqiArr := orEmpty (chain (aq_hourly aqJson) us_aqi) in
  let catArr := orEmpty (chain (aq_hourly aqJson) epa_health_concern) in
  match findIndex_startsWith targetISO times 0 with
  | Throw e => Throw e
  | Ok exactIdx =>
      let hit i :=
        mkAqiInfo (index aqiArr i)
                  (aqiCategory (index catArr i) (index aqiArr i)) in
      if hasVal aqiArr exactIdx then Ok (hit exactIdx)
      else
        match scanDown (hasVal aqiArr) (exactIdx - 1) with
        | Some i => Ok (hit i)
        | None =>
            match scanUp (hasVal aqiArr) (Z.max (exactIdx + 1) 0) (len times) with
            | Some i => Ok (hit i)
            | None => Ok (mkAqiInfo VNull (VStr "Unknown"))
            end
        end
  end.

End Labelled.

(** ** The variant that derives the AQI from PM concentrations
       (third file of src/unnamed/part_000) *)

Module PmDerived.

Local Open Scope Q_scope.

(** A breakpoint row [[C_low, C_high, I_low, I_high]].  The integers and
    the halves are doubles as they stand; the other breakpoints are the
    doubles nearest to the decimals of the source. *)
Definition Row : Type := (Q * Q * Q * Q)%type.

Definition PM25 : list Row :=
  [ (0.0, 12.0, 0, 50);
    (dbl 12.1, dbl 35.4, 51, 100);
    (35.5, dbl 55.4, 101, 150);
    (55.5, dbl 150.4, 151, 200);
    (150.5, dbl 250.4, 201, 300);
    (250.5, dbl 350.4, 301, 400);
    (350.5, dbl 500.4, 401, 500) ].

Definition PM10 : list Row :=
  [ (0, 54, 0, 50);
    (55, 154, 51, 100);
    (155, 254, 101, 150);
    (255, 354, 151, 200);
    (355, 424, 201, 300);
    (425, 504, 301, 400);
    (505, 604, 401, 500) ].

(** The linear interpolation of one row, before [Math.round]: every
    operation of [((Ih - Il) / (Ch - Cl)) * (conc - Cl) + Il] rounds to a
    double.  It is evaluated only for a concentration inside the row,
    where no operation can overflow. *)
Definition interpolate (row : Row) (conc : Q) : Q :=
  let '(Cl, Ch, Il, Ih) := row in
  add64 (mul64 (div64 (sub64 Ih Il) (sub64 Ch Cl)) (sub64 conc Cl)) Il.

Definition inRow (row : Row) (conc : Q) : bool :=
  let '(Cl, Ch, _, _) := row in
  Qle_bool Cl conc && Qle_bool conc Ch.

(** The [for ... of table] loop with its fall-through [return 500]. *)
Fixpoint lookup (table : list Row) (conc : Q) : Z :=
  match table with
  | [] => 500%Z
  | row :: rest =>
      if inRow row conc then Math_round (interpolate row conc)
      else lookup rest conc
  end.

Definition tableOf (pollutant : string) : list Row :=
  if String.eqb pollutant "pm10" then PM10 else PM25.

Definition usAqiFromConcentration (conc : value) (pollutant : string)
  : value :=
  match conc with
  | VNum (Fin c) => VNum (Fin (inject_Z (lookup (tableOf pollutant) c)))
  | _ => VNull
  end.

(** [pickNearest(arr)] of the handler, for the exact index [jExact]. *)
Definition pickNearest (jExact : Z) (arr : list value) : value :=
  if hasVal arr jExact then index arr jExact
  else
    match scanDown (hasVal arr) (jExact - 1) with
    | Some k => index arr k
    | None =>
        match scanUp (hasVal arr) (Z.max (jExact + 1) 0) (len arr) with
        | Some k => index arr k
        | None => VNull
        end
    end.

(** The handler's choice between the two derived indices. *)
Definition selectAqi (pm25 pm10 : value) : value :=
  let aqiFromPm25 := usAqiFromConcentration pm25 "pm25" in
  let aqiFromPm10 := usAqiFromConcentration pm10 "pm10" in
  if Number_isFinite aqiFromPm25 then aqiFromPm25 else aqiFromPm10.

(** The air-quality part of the handler: nearest PM values, the
    derived AQI and its category. *)
Definition resolveAqi (aqJson : AqJson) (targetISO : string)
  : result (value * string) :=
  let aqtimes := orEmpty (chain (aq_hourly aqJson) aq_time) in
  match findIndex_startsWith targetISO aqtimes 0 with
  | Throw e => Throw e
  | Ok jExact =>
      let pm25Arr := orEmpty (chain (aq_hourly aqJson) pm2_5) in
      let pm10Arr := orEmpty (chain (aq_hourly aqJson) pm10) in
      let aqi := selectAqi (pickNearest jExact pm25Arr)
                           (pickNearest jExact pm10Arr) in
      Ok (aqi, aqiCategoryFromNumber aqi)
  end.

End PmDerived.

(** ** The same table walk on binary64 doubles

    [usAqiFromConcentration] evaluated on the primitive doubles, for
    checking the model above at concrete concentrations: the comparisons
    and the interpolation are the primitive double operations, and
    [Math.round] is taken on the exact value of the resulting double. *)

Module Binary64.

Definition Row : Type := (float * float * float * float)%type.

Definition PM25 : list Row :=
  [ (0.0, 12.0, 0, 50);
    (12.1, 35.4, 51, 100);
    (35.5, 55.4, 101, 150);
    (55.5, 150.4, 151, 200);
    (150.5, 250.4, 201, 300);
    (250.5, 350.4, 301, 400);
    (350.5, 500.4, 401, 500) ]%float.

Definition PM10 : list Row :=
  [ (0, 54, 0, 50);
    (55, 154, 51, 100);
    (155, 254, 101, 150);
    (255, 354, 151, 200);
    (355, 424, 201, 300);
    (425, 504, 301, 400);
    (505, 604, 401, 500) ]%float.

(** The rational a finite double denotes. *)
Definition toQ (x : float) : option Q :=
  match Prim2SF x with
  | S754_zero _ => Some 0%Q
  | S754_finite s m e =>
      let mag := (inject_Z (Zpos m) * Qpower 2 e)%Q in
      Some (if s then (- mag)%Q else mag)
  | _ => None
  end.

Fixpoint lookup (table : list Row) (conc : float) : option Z :=
  match table with
  | [] => Some 500
  | (Cl, Ch, Il, Ih) :: rest =>
      if ((Cl <=? conc) && (conc <=? Ch))%float then
        option_map Math_round
                   (toQ (((Ih - Il) / (Ch - Cl)) * (conc - Cl) + Il)%float)
      else lookup rest conc
  end.

(** Whether, at two finite doubles, each of the four primitive
    operations returns the double that [fl] gives for the exact result. *)
Definition sameQ (a : option Q) (b : Q) : bool :=
  match a with
  | Some q => Qeq_bool q b
  | None => false
  end.

Definition valueOf (x : float) : Q :=
  match toQ x with
  | Some q => q
  | None => 0%Q
  end.

Definition sameZ (a : option Z) (b : Z) : bool :=
  match a with
  | Some z => Z.eqb z b
  | None => false
  end.

(** The double of a small non-negative integer. *)
Definition ofZ (k : Z) : float := PrimFloat.of_uint63 (Uint63.of_Z k).

Definition sameOps (x y : float) : bool :=
  sameQ (toQ (x + y)%float) (add64 (valueOf x) (valueOf y))
  && sameQ (toQ (x - y)%float) (sub64 (valueOf x) (valueOf y))
  && sameQ (toQ (x * y)%float) (mul64 (valueOf x) (valueOf y))
  && sameQ (toQ (x / y)%float) (div64 (valueOf x) (valueOf y)).

End Binary64.

(** ** Effects of one handler invocation

    A handler talks to the two data sources, to the notification
    endpoint, to the console and to the platform's response object.  The
    host supplies what those calls answer; the handler's observable
    behaviour is the list of events it produces, in order. *)

Inductive source : Type := Weather | AirQuality.

Inductive event : Type :=
| Fetch (src : source)
| Post (topic : string) (body : string)
| ConsoleError (e : string)
| Respond (code : Z) (success : bool) (text : string).

Record Response (J : Type) : Type := mkResponse {
  ok : bool;
  status : Z;
  json : result J
}.
Arguments mkResponse {J} ok status json.
Arguments ok {J} r.
Arguments status {J} r.
Arguments json {J} r.

Record WeatherHourly : Type := mkWeatherHourly {
  w_time : option (list value);
  temperature_2m : option (list value);
  relative_humidity_2m : option (list value);
  wind_speed_10m : option (list value)
}.

Record WeatherJson : Type := mkWeatherJson { w_hourly : option WeatherHourly }.

(** What the outside world answers during one invocation: the
    environment variable, today's date in the fixed time zone as the
    three parts of [ymd.split("-")], the settled value of each fetch
    (a rejected promise is a [Throw]) and of the push. *)
Record Host : Type := mkHost {
  NTFY_TOPIC : option string;
  ymd : string * string * string;
  weather : result (Response WeatherJson);
  air : result (Response AqJson);
  ntfy : string -> string -> result (Response unit)
}.

Definition M (A : Type) : Type := list event -> result A * list event.

Definition ret {A : Type} (a : A) : M A := fun tr => (Ok a, tr).

Definition bind {A B : Type} (m : M A) (k : A -> M B) : M B :=
  fun tr =>
    match m tr with
    | (Ok a, tr') => k a tr'
    | (Throw e, tr') => (Throw e, tr')
    end.

Definition throw {A : Type} (e : string) : M A := fun tr => (Throw e, tr).

Definition emit (ev : event) : M unit := fun tr => (Ok tt, tr ++ [ev]).

Definition lift {A : Type} (r : result A) : M A := fun tr => (r, tr).

(** [try { body } catch (e) { handle(e) }]. *)
Definition tryCatch {A : Type} (body : M A) (handle : string -> M A) : M A :=
  fun tr =>
    match body tr with
    | (Ok a, tr') => (Ok a, tr')
    | (Throw e, tr') => handle e tr'
    end.

Notation "x <- m ;; k" := (bind m (fun x => k))
  (at level 61, m at next level, right associativity).
Notation "m ;; k" := (bind m (fun _ => k))
  (at level 61, right associativity).

(** The events of a whole invocation. *)
Definition run (m : M unit) : list event := snd (m []).

Definition posts (tr : list event) : list event :=
  filter (fun ev => match ev with Post _ _ => true | _ => false end) tr.

Definition responses (tr : list event) : list event :=
  filter (fun ev => match ev with Respond _ _ _ => true | _ => false end) tr.

(** Decimal text of an integer, as a template literal prints a status. *)
Definition dec (z : Z) : string := DecimalString.NilZero.string_of_int (Z.to_int z).

(** The text of the TypeError raised by reading property [key] of
    [undefined]. *)
Definition readingOfUndefined (key : string) : string :=
  ("TypeError: Cannot read properties of undefined (reading '" ++ key
     ++ "')")%string.

(** [obj.hourly.field[i]], reached only with [i >= 0]: reading index
    [i] of a missing array raises, and so does reading [field] of a
    missing [hourly] (which cannot happen once a timestamp was found). *)
Definition readAt (field : option (list value)) (i : Z) : result value :=
  match field with
  | Some arr => Ok (index arr i)
  | None => Throw (readingOfUndefined (dec i))
  end.

Definition readHourly (wJson : WeatherJson) (name : string)
    (field : WeatherHourly -> option (list value)) (i : Z) : result value :=
  match w_hourly wJson with
  | Some h => readAt (field h) i
  | None => Throw (readingOfUndefined name)
  end.

Definition glyph (i : icon) : string :=
  match i with
  | Red => "🔴"
  | Yellow => "🟡"
  | Green => "🟢"
  end.

Definition targetHour : string := "06:00".

Definition targetOf (h : Host) : string :=
  let '(y, m, d) := ymd h in
  (y ++ "-" ++ m ++ "-" ++ d ++ "T" ++ targetHour)%string.

(** [process.env.NTFY_TOPIC] with [if (!topic) throw ...]. *)
Definition requireTopic (h : Host) : M string :=
  match NTFY_TOPIC h with
  | Some t =>
      if String.eqb t "" then throw "Error: Missing NTFY_TOPIC env var"
      else ret t
  | None => throw "Error: Missing NTFY_TOPIC env var"
  end.

(** [await Promise.all([fetch(weatherUrl), fetch(aqUrl)])]: both requests
    are issued, then both answers are needed. *)
Definition fetchBoth (h : Host)
  : M (Response WeatherJson * Response AqJson) :=
  emit (Fetch Weather) ;;
  emit (Fetch AirQuality) ;;
  wRes <- lift (weather h) ;;
  aqRes <- lift (air h) ;;
  ret (wRes, aqRes).

Definition jsonBoth (wRes : Response WeatherJson) (aqRes : Response AqJson)
  : M (WeatherJson * AqJson) :=
  wJson <- lift (json wRes) ;;
  aqJson <- lift (json aqRes) ;;
  ret (wJson, aqJson).

Section Handler.

(** [x.toFixed(d)] of the host, for a finite [x]. *)
Variable toFixed : Q -> Z -> string.

Definition fmt (n : value) (d : Z) : string :=
  match n with
  | VNum (Fin q) => toFixed q d
  | _ => "NA"
  end.

Definition windOf (windMs : value) : value :=
  match windMs with
  | VNum (Fin w) => VNum (round64 (w * dbl 3.6)%Q)
  | _ => VNull
  end.

Definition messageLine (verdict : Verdict) (tempC rh windKmh aqi : value)
    (aqiCat : string) : string :=
  let aqiText :=
    if Number_isFinite aqi then (fmt aqi 0 ++ " (" ++ aqiCat ++ ")")%string
    else "NA"%string in
  ("🌅 Good morning, Nitay! 🏃‍♂️ " ++ glyph (v_icon verdict) ++ " "
     ++ v_text verdict ++ " • 🌡️ " ++ fmt tempC 0 ++ "°C • 💧 "
     ++ fmt rh 0 ++ "% • 💨 " ++ fmt windKmh 0 ++ " km/h • 🌫️ AQI "
     ++ aqiText)%string.

(** The body of the [try] block of api/run-verdict.js. *)
Definition handlerBody (h : Host) : M unit :=
  topic <- requireTopic h ;;
  let targetISO := targetOf h in
  rs <- fetchBoth h ;;
  let '(wRes, aqRes) := rs in
  if negb (ok wRes) then
    throw ("Error: weather fetch failed: " ++ dec (status wRes))
  else if negb (ok aqRes) then
    throw ("Error: aq fetch failed: " ++ dec (status aqRes))
  else
    js <- jsonBoth wRes aqRes ;;
    let '(wJson, aqJson) := js in
    let times := orEmpty (chain (w_hourly wJson) w_time) in
    i <- lift (findIndex_startsWith targetISO times 0) ;;
    tempC <- (if 0 <=? i then lift (readHourly wJson "temperature_2m" temperature_2m i)
              else ret VNull) ;;
    rh <- (if 0 <=? i then lift (readHourly wJson "relative_humidity_2m"
                                         relative_humidity_2m i)
           else ret VNull) ;;
    windMs <- (if 0 <=? i then lift (readHourly wJson "wind_speed_10m" wind_speed_10m i)
               else ret VNull) ;;
    let windKmh := windOf windMs in
    info <- lift (findNearestAqi aqJson targetISO) ;;
    let verdict :=
      verdictForAsthma (mkReading tempC rh windKmh (info_aqi info)) in
    let line :=
      messageLine verdict tempC rh windKmh (info_aqi info)
                  (info_category info) in
    emit (Post topic line) ;;
    push <- lift (ntfy h topic line) ;;
    if negb (ok push) then
      throw ("Error: ntfy push failed: " ++ dec (status push))
    else emit (Respond 200 true line).

Definition handler (h : Host) : M unit :=
  tryCatch (handlerBody h)
    (fun e =>
       emit (ConsoleError ("ERROR: " ++ e)) ;;
       emit (Respond 500 false e)).

End Handler.

(** ** The first variant (first file of src/unnamed/part_000): no
       [Number.isFinite] guards, no check of the upstream responses *)

Module Legacy.

Section Legacy.

(** The host's conversion of a string to a number, used when [>=] or
    [*] meets a string operand, and its [toFixed]. *)
Variable StringToNumber : string -> number.
Variable toFixed : Q -> Z -> string.

Definition ToNumber (v : value) : number :=
  match v with
  | VUndefined => NaN
  | VNull => Fin 0
  | VBool true => Fin 1
  | VBool false => Fin 0
  | VNum n => n
  | VStr s => StringToNumber s
  end.

(** [v >= k] with the operand coerced by [ToNumber]. *)
Definition ge (v : value) (k : Z) : bool :=
  num_ge (ToNumber v) (Fin (inject_Z k)).

Definition verdictForAsthma (r : Reading) : Verdict :=
  if ge (aqi r) 101 then IndoorOnly
  else if ge (aqi r) 51 then
    if ge (tempC r) 32 then IndoorOnly else Caution
  else if ge (tempC r) 32 then IndoorOnly
  else if ge (tempC r) 28 || ge (rh r) 75 then Caution
  else SafeToRun.

(** [windMs != null ? windMs * 3.6 : null]. *)
Definition windOf (windMs : value) : value :=
  match windMs with
  | VUndefined | VNull => VNull
  | _ =>
      match ToNumber windMs with
      | Fin w => VNum (round64 (w * dbl 3.6)%Q)
      | n => VNum n
      end
  end.

Definition messageLine (v : Verdict) (tempC rh windKmh aqi : value)
  : string :=
  (glyph (v_icon v) ++ " " ++ v_text v ++ " – " ++ fmt toFixed tempC 0
     ++ " °C, RH " ++ fmt toFixed rh 0 ++ "%, wind "
     ++ fmt toFixed windKmh 0 ++ " km/h, AQI " ++ fmt toFixed aqi 0)%string.

Definition readAq (aqJson : AqJson) (name : string)
    (field : AqHourly -> option (list value)) (i : Z) : result value :=
  match aq_hourly aqJson with
  | Some h => readAt (field h) i
  | None => Throw (readingOfUndefined name)
  end.

Definition handlerBody (h : Host) : M unit :=
  let target := targetOf h in
  rs <- fetchBoth h ;;
  let '(wRes, aqRes) := rs in
  js <- jsonBoth wRes aqRes ;;
  let '(wJson, aqJson) := js in
  let wTime := orEmpty (chain (w_hourly wJson) w_time) in
  idx <- lift (findIndex_startsWith target wTime 0) ;;
  tempC <- (if 0 <=? idx then lift (readHourly wJson "temperature_2m" temperature_2m idx)
            else ret VNull) ;;
  rh <- (if 0 <=? idx then lift (readHourly wJson "relative_humidity_2m"
                                        relative_humidity_2m idx)
         else ret VNull) ;;
  windMs <- (if 0 <=? idx then lift (readHourly wJson "wind_speed_10m" wind_speed_10m idx)
             else ret VNull) ;;
  let windKmh := windOf windMs in
  let aqTime := orEmpty (chain (aq_hourly aqJson) aq_time) in
  aqIdx <- lift (findIndex_startsWith target aqTime 0) ;;
  aqi <- (if 0 <=? aqIdx then lift (readAq aqJson "us_aqi" us_aqi aqIdx)
          else ret VNull) ;;
  pm25 <- (if 0 <=? aqIdx then lift (readAq aqJson "pm2_5" pm2_5 aqIdx)
           else ret VNull) ;;
  pm10 <- (if 0 <=? aqIdx then lift (readAq aqJson "pm10" pm10 aqIdx)
           else ret VNull) ;;
  let v := verdictForAsthma (mkReading tempC rh windKmh aqi) in
  let line := messageLine v tempC rh windKmh aqi in
  topic <- requireTopic h ;;
  emit (Post topic line) ;;
  resp <- lift (ntfy h topic line) ;;
  if negb (ok resp) then
    throw ("Error: ntfy push failed: " ++ dec (status resp))
  else emit (Respond 200 true line).

(** The success response of this variant also carries [sentTo] and a
    [details] object with the readings; [Respond] keeps the status, the
    [ok] flag and the message. *)
Definition handler (h : Host) : M unit :=
  tryCatch (handlerBody h) (fun e => emit (Respond 500 false e)).

End Legacy.

End Legacy.

(** ** The variant that reports the time of the reading (fourth file
       of src/unnamed/part_000): a value counts when it is not null *)

Module NullChecked.

(** [v != null]: neither null nor undefined. *)
Definition notNull (v : value) : bool :=
  match v with
  | VUndefined | VNull => false
  | _ => true
  end.

Definition aqiCategory (catStr aqiVal : value) : value :=
  if ToBoolean catStr then catStr
  else if negb (notNull aqiVal) || negb (Number_isFinite aqiVal)
  then VStr "Unknown"
  else if le_const aqiVal 50 then VStr "Good"
  else if le_const aqiVal 100 then VStr "Moderate"
  else if le_const aqiVal 150 then VStr "Unhealthy for Sensitive Groups"
  else if le_const aqiVal 200 then VStr "Unhealthy"
  else if le_const aqiVal 300 then VStr "Very Unhealthy"
  else VStr "Hazardous".

(** [i >= 0 && i < aqiArr.length && aqiArr[i] != null]. *)
Definition hasVal (arr : list value) (i : Z) : bool :=
  (0 <=? i) && (i <? len arr) && notNull (index arr i).

Record AqiInfo : Type := mkAqiInfo {
  info_aqi : value;
  info_category : value;
  info_time : value
}.

Definition findNearestAqi (aqJson : AqJson) (targetISO : string)
  : result AqiInfo :=
  let times := orEmpty (chain (aq_hourly aqJson) aq_time) in
  let aqiArr := orEmpty (chain (aq_hourly aqJson) us_aqi) in
  let catArr := orEmpty (chain (aq_hourly aqJson) epa_health_concern) in
  match findIndex_startsWith targetISO times 0 with
  | Throw e => Throw e
  | Ok exactIdx =>
      let hit i :=
        mkAqiInfo (index aqiArr i)
                  (aqiCategory (index catArr i) (index aqiArr i))
                  (index times i) in
      if hasVal aqiArr exactIdx then Ok (hit exactIdx)
      else
        match scanDown (hasVal aqiArr) (exactIdx - 1) with
        | Some i => Ok (hit i)
        | None =>
            match scanUp (hasVal aqiArr) (Z.max (exactIdx + 1) 0) (len times) with
            | Some i => Ok (hit i)
            | None => Ok (mkAqiInfo VNull (VStr "Unknown") VNull)
            end
        end
  end.

End NullChecked.

(** ** Vocabulary of the specification *)

(** A reading is present when it is a finite number. *)
Definition present (v : value) (q : Q) : Prop := v = VNum (Fin q).

Definition absent (v : value) : Prop := Number_isFinite v = false.

(** "Present and at least [k]", "present and below [k]". *)
Definition atLeast (v : value) (k : Z) : Prop :=
  exists q, present v q /\ (inject_Z k <= q)%Q.

Definition below (v : value) (k : Z) : Prop :=
  exists q, present v q /\ (q < inject_Z k)%Q.

(** The readings of the data model: an absent sample or a finite
    number. *)
Definition plain (v : value) : Prop :=
  v = VNull \/ v = VUndefined \/ exists q, v = VNum (Fin q).

(** A concentration is covered when some row of the table holds it. *)
Definition covered (table : list PmDerived.Row) (c : Q) : Prop :=
  exists row, In row table /\ PmDerived.inRow row c = true.

(** How strict a verdict is: green, then yellow, then red. *)
Definition severity (v : Verdict) : nat :=
  match v_icon v with
  | Green => 0
  | Yellow => 1
  | Red => 2
  end.

(** One reading is no higher than another: it is absent, or both are
    present and ordered. *)
Definition noHigher (v1 v2 : value) : Prop :=
  absent v1 \/ exists q1 q2, present v1 q1 /\ present v2 q2 /\ (q1 <= q2)%Q.

(** An event that is a write to the console. *)
Definition isConsoleError (ev : event) : bool :=
  match ev with
  | ConsoleError _ => true
  | _ => false
  end.

(** A JavaScript value that is a string. *)
Definition isString (v : value) : bool :=
  match v with
  | VStr _ => true
  | _ => false
  end.

(** The entry of a series at a position is usable when it is a finite
    number; a position past the end holds nothing. *)
Definition usableAt (arr : list value) (i : nat) : bool :=
  Number_isFinite (nth i arr VUndefined).

(** [k] is the first timestamp that starts with the target prefix. *)
Definition firstMatch (ts : list string) (t : string) (k : nat) : Prop :=
  (exists s, nth_error ts k = Some s /\ String.prefix t s = true)
  /\ forall j s, (j < k)%nat -> nth_error ts j = Some s ->
                 String.prefix t s = false.

Definition noMatch (ts : list string) (t : string) : Prop :=
  forall s, In s ts -> String.prefix t s = false.

(** The position the nearest-valid-hour rule selects, in the words of
    the specification: the target itself, else the closest usable
    position before it, else the closest usable position after it
    (from the start when there is no target), else none. *)
Inductive Nearest (ts : list string) (t : string) (arr : list value)
  : option nat -> Prop :=
| NearExact k :
    firstMatch ts t k -> usableAt arr k = true ->
    Nearest ts t arr (Some k)
| NearBefore k j :
    firstMatch ts t k -> usableAt arr k = false ->
    (j < k)%nat -> usableAt arr j = true ->
    (forall i, (j < i < k)%nat -> usableAt arr i = false) ->
    Nearest ts t arr (Some j)
| NearAfter k j :
    firstMatch ts t k ->
    (forall i, (i <= k)%nat -> usableAt arr i = false) ->
    (k < j < List.length ts)%nat -> usableAt arr j = true ->
    (forall i, (k < i < j)%nat -> usableAt arr i = false) ->
    Nearest ts t arr (Some j)
| NearFromStart j :
    noMatch ts t ->
    (j < List.length ts)%nat -> usableAt arr j = true ->
    (forall i, (i < j)%nat -> usableAt arr i = false) ->
    Nearest ts t arr (Some j)
| NearNone :
    (forall i, (i < List.length ts)%nat -> usableAt arr i = false) ->
    Nearest ts t arr None.

(** What the resolver answers for a selected position. *)
Definition answer (arr : list value) (o : option nat) : AqiInfo :=
  match o with
  | Some j =>
      mkAqiInfo (nth j arr VUndefined)
                (aqiCategoryFromNumber (nth j arr VUndefined))
  | None => mkAqiInfo VNull "Unknown"
  end.

(** An air-quality document whose [hourly.time] holds the timestamps
    [ts] and whose [hourly.us_aqi] is [arr]. *)
Definition aqSeries (ts : list string) (arr : list value)
    (cat pm25 pm10 : option (list value)) : AqJson :=
  mkAqJson (Some (mkAqHourly (Some (map VStr ts)) (Some arr) cat pm25 pm10)).

Definition resultMap {A B : Type} (f : A -> B) (r : result A) : result B :=
  match r with
  | Ok a => Ok (f a)
  | Throw e => Throw e
  end.

(** A [toFixed] for running the handlers: zero decimals, the sign
    first, the magnitude rounded to the nearest integer with a tie going
    away from zero. *)
Definition toFixed0 (q : Q) (d : Z) : string :=
  if Qle_bool 0 q then dec (Math_round q)
  else ("-" ++ dec (Math_round (- q)))%string.

(** * Properties *)

Lemma Qle_bool_false (x y : Q) : Qle_bool x y = false <-> (y < x)%Q.
Proof.
  split; intro H.
  - apply Qnot_le_lt. intro L. apply Qle_bool_iff in L. congruence.
  - destruct (Qle_bool x y) eqn:E; [|reflexivity].
    apply Qle_bool_iff in E. exfalso. exact (Qlt_not_le _ _ H E).
Qed.

Lemma ge_const_present (v : value) (k : Z) (q : Q) :
  present v q -> ge_const v k = Qle_bool (inject_Z k) q.
Proof. intros ->. reflexivity. Qed.

Lemma guard_atLeast (v : value) (k : Z) :
  Number_isFinite v && ge_const v k = true <-> atLeast v k.
Proof.
  split.
  - destruct v as [| | b | [| | | q] | s]; simpl; try discriminate.
    intro H. exists q. split; [reflexivity | now apply Qle_bool_iff].
  - intros (q & -> & H). simpl. now apply Qle_bool_iff.
Qed.

Lemma guard_not_atLeast (v : value) (k : Z) :
  Number_isFinite v && ge_const v k = false <-> ~ atLeast v k.
Proof.
  rewrite <- guard_atLeast.
  destruct (Number_isFinite v && ge_const v k); split; intro H;
    try reflexivity; try discriminate; try (intro; discriminate).
  exfalso. now apply H.
Qed.

Lemma absent_not_atLeast (v : value) (k : Z) : absent v -> ~ atLeast v k.
Proof. intros A (q & -> & _). discriminate A. Qed.

Lemma below_not_atLeast (v : value) (k k' : Z) :
  (k <= k')%Z -> below v k -> ~ atLeast v k'.
Proof.
  intros Hk (q & -> & Hlt) (q' & E & Hle). injection E as <-.
  apply (Qlt_not_le _ _ Hlt). eapply Qle_trans; [|exact Hle].
  rewrite <- Zle_Qle. exact Hk.
Qed.

(** The verdict as the five-row decision table of the specification. *)
Lemma verdict_table (t h w a : value) :
  verdictForAsthma (mkReading t h w a) =
    if Number_isFinite a && ge_const a 101 then IndoorOnly
    else if Number_isFinite a && ge_const a 51 then
      if Number_isFinite t && ge_const t 32 then IndoorOnly else Caution
    else if Number_isFinite t && ge_const t 32 then IndoorOnly
    else if (Number_isFinite t && ge_const t 28)
            || (Number_isFinite h && ge_const h 75) then Caution
    else SafeToRun.
Proof. reflexivity. Qed.

(** Comparisons between rational constants. *)
Ltac qcmp := unfold Qle, Qlt; simpl; lia.

Ltac decide_guard v k :=
  let E := fresh "E" in
  destruct (Number_isFinite v && ge_const v k) eqn:E;
  [apply guard_atLeast in E | apply guard_not_atLeast in E].

(** The two AQI rows of the table: the first wins from 101 on, the
    second holds from 51 up to (not including) 101. *)
Lemma verdict_aqi_rows_gen (t h w a : value) :
  (atLeast a 101 -> verdictForAsthma (mkReading t h w a) = IndoorOnly)
  /\ (atLeast a 51 -> ~ atLeast a 101 -> atLeast t 32 ->
      verdictForAsthma (mkReading t h w a) = IndoorOnly)
  /\ (atLeast a 51 -> ~ atLeast a 101 -> absent t \/ below t 32 ->
      verdictForAsthma (mkReading t h w a) = Caution).
Proof.
  rewrite verdict_table. repeat split.
  - intro H. apply guard_atLeast in H. now rewrite H.
  - intros H51 H101 H32.
    apply guard_not_atLeast in H101. apply guard_atLeast in H51, H32.
    now rewrite H101, H51, H32.
  - intros H51 H101 Ht.
    apply guard_not_atLeast in H101. apply guard_atLeast in H51.
    rewrite H101, H51.
    decide_guard t 32; [exfalso | reflexivity].
    destruct Ht as [Ht | Ht].
    + exact (absent_not_atLeast _ _ Ht E).
    + exact (below_not_atLeast _ _ _ (Z.le_refl _) Ht E).
Qed.

Lemma atLeast_intro (v : value) (k : Z) (q : Q) :
  present v q -> (inject_Z k <= q)%Q -> atLeast v k.
Proof. intros P H. exists q. now split. Qed.

Lemma not_atLeast_intro (v : value) (k : Z) (q : Q) :
  present v q -> (q < inject_Z k)%Q -> ~ atLeast v k.
Proof.
  intros P H (q' & P' & H'). unfold present in *. rewrite P in P'.
  injection P' as <-. exact (Qlt_not_le _ _ H H').
Qed.

(** The guarded classifier of api/run-verdict.js on the two AQI rows:
    with the AQI present and at least 101 the verdict is red "Indoor
    only" whatever the temperature, humidity and wind are, absent ones
    included; with the AQI present and in [51,100] the verdict is red
    "Indoor only" when the temperature is present and at least 32, and
    yellow "Caution" when the temperature is absent or below 32. *)
Theorem verdict_aqi_rows (t h w a : value) (q : Q) :
  present a q ->
  ((101 <= q)%Q -> verdictForAsthma (mkReading t h w a) = IndoorOnly)
  /\ ((51 <= q <= 100)%Q -> atLeast t 32 ->
      verdictForAsthma (mkReading t h w a) = IndoorOnly)
  /\ ((51 <= q <= 100)%Q -> absent t \/ below t 32 ->
      verdictForAsthma (mkReading t h w a) = Caution).
Proof.
  intro P.
  destruct (verdict_aqi_rows_gen t h w a) as (R1 & R2 & R3).
  assert (In51 : (51 <= q <= 100)%Q -> atLeast a 51 /\ ~ atLeast a 101).
  { intros [Lo Hi]. split.
    - exact (atLeast_intro a 51 q P Lo).
    - apply (not_atLeast_intro a 101 q P).
      eapply Qle_lt_trans; [exact Hi | reflexivity]. }
  repeat split.
  - intro H. apply R1. exact (atLeast_intro a 101 q P H).
  - intros Hq Ht. destruct (In51 Hq). now apply R2.
  - intros Hq Ht. destruct (In51 Hq). now apply R3.
Qed.

Lemma verdict_aqi_rows_witness :
  verdictForAsthma (mkReading VNull VUndefined VNull (VNum (Fin 120))) = IndoorOnly
  /\ verdictForAsthma
       (mkReading (VNum (Fin 33)) VNull VNull (VNum (Fin 60))) = IndoorOnly
  /\ verdictForAsthma
       (mkReading VNull (VNum (Fin 90)) VNull (VNum (Fin 60))) = Caution.
Proof.
  split; [|split].
  - destruct (verdict_aqi_rows VNull VUndefined VNull (VNum (Fin 120)) 120
                eq_refl) as (R1 & _ & _).
    apply R1. qcmp.
  - destruct (verdict_aqi_rows (VNum (Fin 33)) VNull VNull (VNum (Fin 60)) 60
                eq_refl) as (_ & R2 & _).
    apply R2.
    + split; qcmp.
    + exists 33%Q. split; [reflexivity | qcmp].
  - destruct (verdict_aqi_rows VNull (VNum (Fin 90)) VNull (VNum (Fin 60)) 60
                eq_refl) as (_ & _ & R3).
    apply R3.
    + split; qcmp.
    + left. reflexivity.
Defined.

(** C2. With the AQI absent or below 51: a temperature present and at
    least 32 gives red "Indoor only"; otherwise a temperature present and
    at least 28, or a humidity present and at least 75, gives yellow
    "Caution"; otherwise the verdict is green "Safe to run".  The guarded
    comparison of an absent reading with a threshold is false, so four
    absent inputs give green. *)
Theorem verdict_heat_rows (t h w a : value) :
  absent a \/ below a 51 ->
  (atLeast t 32 -> verdictForAsthma (mkReading t h w a) = IndoorOnly)
  /\ (~ atLeast t 32 -> atLeast t 28 \/ atLeast h 75 ->
      verdictForAsthma (mkReading t h w a) = Caution)
  /\ (~ atLeast t 32 -> ~ atLeast t 28 -> ~ atLeast h 75 ->
      verdictForAsthma (mkReading t h w a) = SafeToRun)
  /\ (forall v k, absent v -> Number_isFinite v && ge_const v k = false)
  /\ (absent t -> absent h -> absent w ->
      verdictForAsthma (mkReading t h w a) = SafeToRun).
Proof.
  intro Ha.
  assert (N101 : ~ atLeast a 101).
  { destruct Ha as [Ha | Ha].
    - now apply absent_not_atLeast.
    - apply (below_not_atLeast a 51 101); [lia | exact Ha]. }
  assert (N51 : ~ atLeast a 51).
  { destruct Ha as [Ha | Ha].
    - now apply absent_not_atLeast.
    - apply (below_not_atLeast a 51 51); [lia | exact Ha]. }
  apply guard_not_atLeast in N101, N51.
  rewrite verdict_table, N101, N51.
  assert (Safe : ~ atLeast t 32 -> ~ atLeast t 28 -> ~ atLeast h 75 ->
    (if Number_isFinite t && ge_const t 32 then IndoorOnly
     else if (Number_isFinite t && ge_const t 28)
             || (Number_isFinite h && ge_const h 75) then Caution
     else SafeToRun) = SafeToRun).
  { intros H32 H28 H75. apply guard_not_atLeast in H32, H28, H75.
    now rewrite H32, H28, H75. }
  repeat split.
  - intro H. apply guard_atLeast in H. now rewrite H.
  - intros H32 [H | H]; apply guard_not_atLeast in H32;
      apply guard_atLeast in H; rewrite H32, H; [reflexivity|].
    now rewrite orb_true_r.
  - exact Safe.
  - intros v k A. unfold absent in A. now rewrite A.
  - intros At Ah _. apply Safe; now apply absent_not_atLeast.
Qed.

Lemma verdict_heat_rows_witness :
  verdictForAsthma (mkReading VNull VNull VNull VNull) = SafeToRun
  /\ verdictForAsthma
       (mkReading (VNum (Fin 30)) (VNum (Fin 50)) (VNum (Fin 10))
                  (VNum (Fin 40))) = Caution.
Proof.
  split.
  - destruct (verdict_heat_rows VNull VNull VNull VNull (or_introl eq_refl))
      as (_ & _ & _ & _ & R5).
    apply R5; reflexivity.
  - assert (B : below (VNum (Fin 40)) 51).
    { exists 40%Q. split; [reflexivity | qcmp]. }
    destruct (verdict_heat_rows (VNum (Fin 30)) (VNum (Fin 50))
                (VNum (Fin 10)) (VNum (Fin 40)) (or_intror B))
      as (_ & R2 & _).
    apply R2.
    + apply (not_atLeast_intro _ 32 30%Q); [reflexivity | qcmp].
    + left. exists 30%Q. split; [reflexivity | qcmp].
Defined.

(** C9. The wind reading never changes the verdict: two readings that
    differ only in the wind, each present or absent, get the same
    verdict, from the guarded classifier and from the unguarded one. *)
Theorem verdict_ignores_wind (t h a w1 w2 : value) :
  verdictForAsthma (mkReading t h w1 a) = verdictForAsthma (mkReading t h w2 a)
  /\ forall S : string -> number,
       Legacy.verdictForAsthma S (mkReading t h w1 a)
       = Legacy.verdictForAsthma S (mkReading t h w2 a).
Proof.
  split.
  - rewrite !verdict_table. reflexivity.
  - intro S. unfold Legacy.verdictForAsthma. reflexivity.
Qed.

Lemma le_const_present (v : value) (k : Z) (q : Q) :
  present v q -> le_const v k = Qle_bool q (inject_Z k).
Proof. intros ->. reflexivity. Qed.

(** Turns every boolean comparison of the goal into the order fact it
    decides, one case per outcome. *)
Ltac split_Qle :=
  repeat match goal with
  | |- context [Qle_bool ?x ?y] =>
      let E := fresh "E" in
      destruct (Qle_bool x y) eqn:E;
      [apply Qle_bool_iff in E | apply Qle_bool_false in E];
      simpl in E |- *
  end.

Lemma category_thresholds (q : Q) :
  let a := VNum (Fin q) in
  ((q <= 50)%Q -> aqiCategoryFromNumber a = "Good"%string)
  /\ ((50 < q <= 100)%Q -> aqiCategoryFromNumber a = "Moderate"%string)
  /\ ((100 < q <= 150)%Q ->
      aqiCategoryFromNumber a = "Unhealthy for Sensitive Groups"%string)
  /\ ((150 < q <= 200)%Q -> aqiCategoryFromNumber a = "Unhealthy"%string)
  /\ ((200 < q <= 300)%Q -> aqiCategoryFromNumber a = "Very Unhealthy"%string)
  /\ ((300 < q)%Q -> aqiCategoryFromNumber a = "Hazardous"%string).
Proof.
  cbv zeta. unfold aqiCategoryFromNumber, le_const, num_le, num_ge. simpl.
  repeat split; intros H; split_Qle; try reflexivity; exfalso;
    unfold inject_Z in *; lra.
Qed.

Lemma labelled_category_derived (cat a : value) :
  ToBoolean cat = false ->
  Labelled.aqiCategory cat a = VStr (aqiCategoryFromNumber a).
Proof.
  intro F. unfold Labelled.aqiCategory, aqiCategoryFromNumber. rewrite F.
  repeat match goal with
  | |- context [if ?b then _ else _] => destruct b; try reflexivity
  end.
Qed.

(** C6. A category label that accompanies the reading is returned as it
    is; without one the category follows the numeric thresholds (at most
    50 Good, at most 100 Moderate, at most 150 Unhealthy for Sensitive
    Groups, at most 200 Unhealthy, at most 300 Very Unhealthy, above 300
    Hazardous); an absent or non-finite AQI without a label is Unknown. *)
Theorem category_mapping (cat a : value) :
  (ToBoolean cat = true -> Labelled.aqiCategory cat a = cat)
  /\ (forall s, s <> EmptyString ->
      Labelled.aqiCategory (VStr s) a = VStr s)
  /\ (ToBoolean cat = false ->
      Labelled.aqiCategory cat a = VStr (aqiCategoryFromNumber a))
  /\ (forall q, present a q ->
      ((q <= 50)%Q -> aqiCategoryFromNumber a = "Good"%string)
      /\ ((50 < q <= 100)%Q -> aqiCategoryFromNumber a = "Moderate"%string)
      /\ ((100 < q <= 150)%Q ->
          aqiCategoryFromNumber a = "Unhealthy for Sensitive Groups"%string)
      /\ ((150 < q <= 200)%Q -> aqiCategoryFromNumber a = "Unhealthy"%string)
      /\ ((200 < q <= 300)%Q ->
          aqiCategoryFromNumber a = "Very Unhealthy"%string)
      /\ ((300 < q)%Q -> aqiCategoryFromNumber a = "Hazardous"%string))
  /\ (absent a -> aqiCategoryFromNumber a = "Unknown"%string).
Proof.
  split; [|split; [|split; [|split]]].
  - intro T. unfold Labelled.aqiCategory. now rewrite T.
  - intros s Hs. unfold Labelled.aqiCategory. simpl.
    destruct (String.eqb s EmptyString) eqn:E; [|reflexivity].
    apply String.eqb_eq in E. contradiction.
  - apply labelled_category_derived.
  - intros q ->. apply category_thresholds.
  - intro A. unfold aqiCategoryFromNumber. unfold absent in A. now rewrite A.
Qed.

Lemma category_mapping_witness :
  Labelled.aqiCategory (VStr "Moderate") (VNum (Fin 20)) = VStr "Moderate"
  /\ Labelled.aqiCategory VUndefined (VNum (Fin 51)) = VStr "Moderate"
  /\ aqiCategoryFromNumber (VNum (Fin 50)) = "Good"%string
  /\ aqiCategoryFromNumber (VNum (Fin 300)) = "Very Unhealthy"%string
  /\ aqiCategoryFromNumber (VNum (Fin 301)) = "Hazardous"%string
  /\ aqiCategoryFromNumber VNull = "Unknown"%string.
Proof.
  refine (conj _ (conj _ (conj _ (conj _ (conj _ _))))).
  - destruct (category_mapping (VStr "Moderate") (VNum (Fin 20)))
      as (R1 & _).
    apply R1. reflexivity.
  - destruct (category_mapping VUndefined (VNum (Fin 51)))
      as (_ & _ & R3 & _).
    rewrite (R3 eq_refl). reflexivity.
  - destruct (category_mapping VNull (VNum (Fin 50))) as (_ & _ & _ & R4 & _).
    destruct (R4 50%Q eq_refl) as (G & _). apply G. qcmp.
  - destruct (category_mapping VNull (VNum (Fin 300))) as (_ & _ & _ & R4 & _).
    destruct (R4 300%Q eq_refl) as (_ & _ & _ & _ & G & _). apply G.
    split; qcmp.
  - destruct (category_mapping VNull (VNum (Fin 301))) as (_ & _ & _ & R4 & _).
    destruct (R4 301%Q eq_refl) as (_ & _ & _ & _ & _ & G). apply G. qcmp.
  - destruct (category_mapping VNull VNull) as (_ & _ & _ & _ & R5).
    apply R5. reflexivity.
Defined.

(** ** The two scanning loops *)

Lemma countDown_Some (p : Z -> bool) (n : nat) (i : Z) :
  countDown p n = Some i ->
  exists m, i = Z.of_nat m /\ (m < n)%nat /\ p (Z.of_nat m) = true
            /\ forall j, (m < j < n)%nat -> p (Z.of_nat j) = false.
Proof.
  induction n as [|n IH]; simpl; [discriminate|].
  destruct (p (Z.of_nat n)) eqn:E.
  - intros [= <-]. exists n. repeat split; auto; lia.
  - intro H. destruct (IH H) as (m & -> & Hm & Hp & Hgap).
    exists m. repeat split; auto.
    intros j Hj. destruct (Nat.eq_dec j n) as [-> | Hne]; [exact E|].
    apply Hgap. lia.
Qed.

Lemma countDown_None (p : Z -> bool) (n : nat) :
  countDown p n = None ->
  forall j, (j < n)%nat -> p (Z.of_nat j) = false.
Proof.
  induction n as [|n IH]; simpl; [lia|].
  destruct (p (Z.of_nat n)) eqn:E; [discriminate|].
  intros H j Hj. destruct (Nat.eq_dec j n) as [-> | Hne]; [exact E|].
  apply IH; [exact H | lia].
Qed.

Lemma countUp_Some (p : Z -> bool) (n s : nat) (i : Z) :
  countUp p (Z.of_nat s) n = Some i ->
  exists m, i = Z.of_nat m /\ (s <= m < s + n)%nat /\ p (Z.of_nat m) = true
            /\ forall j, (s <= j < m)%nat -> p (Z.of_nat j) = false.
Proof.
  revert s. induction n as [|n IH]; intro s; simpl; [discriminate|].
  destruct (p (Z.of_nat s)) eqn:E.
  - intros [= <-]. exists s. repeat split; auto; lia.
  - replace (Z.of_nat s + 1) with (Z.of_nat (S s)) by lia.
    intro H. destruct (IH _ H) as (m & -> & Hm & Hp & Hgap).
    exists m. repeat split; auto; try lia.
    intros j Hj. destruct (Nat.eq_dec j s) as [-> | Hne]; [exact E|].
    apply Hgap. lia.
Qed.

Lemma countUp_None (p : Z -> bool) (n s : nat) :
  countUp p (Z.of_nat s) n = None ->
  forall j, (s <= j < s + n)%nat -> p (Z.of_nat j) = false.
Proof.
  revert s. induction n as [|n IH]; intro s; simpl; [lia|].
  destruct (p (Z.of_nat s)) eqn:E; [discriminate|].
  replace (Z.of_nat s + 1) with (Z.of_nat (S s)) by lia.
  intros H j Hj. destruct (Nat.eq_dec j s) as [-> | Hne]; [exact E|].
  apply (IH _ H). lia.
Qed.

Lemma index_of_nat (arr : list value) (i : nat) :
  index arr (Z.of_nat i) = nth i arr VUndefined.
Proof.
  unfold index. destruct (Z.of_nat i <? 0) eqn:E.
  - apply Z.ltb_lt in E. lia.
  - now rewrite Nat2Z.id.
Qed.

Lemma hasVal_usable (arr : list value) (i : nat) :
  hasVal arr (Z.of_nat i) = usableAt arr i.
Proof.
  unfold hasVal, usableAt, len. rewrite index_of_nat.
  destruct (0 <=? Z.of_nat i) eqn:E0; [|apply Z.leb_gt in E0; lia].
  destruct (Z.of_nat i <? Z.of_nat (List.length arr)) eqn:E1; simpl.
  - reflexivity.
  - apply Z.ltb_ge in E1. rewrite nth_overflow by lia. reflexivity.
Qed.

Lemma hasVal_negative (arr : list value) (i : Z) :
  i < 0 -> hasVal arr i = false.
Proof.
  intro H. unfold hasVal.
  destruct (0 <=? i) eqn:E; [apply Z.leb_le in E; lia | reflexivity].
Qed.

Lemma usableAt_bound (arr : list value) (i : nat) :
  usableAt arr i = true -> (i < List.length arr)%nat.
Proof.
  unfold usableAt. intro H.
  destruct (Nat.lt_ge_cases i (List.length arr)) as [L | G]; [exact L|].
  rewrite nth_overflow in H by exact G. discriminate.
Qed.

(** ** Locating the target *)

Lemma firstMatch_here (t s : string) (ts : list string) :
  String.prefix t s = true -> firstMatch (s :: ts) t 0.
Proof.
  intro H. split.
  - exists s. now split.
  - intros j s' Hj. lia.
Qed.

Lemma firstMatch_later (t s : string) (ts : list string) (k : nat) :
  String.prefix t s = false -> firstMatch ts t k -> firstMatch (s :: ts) t (S k).
Proof.
  intros H ((s' & Hn & Hp) & Hmin). split.
  - exists s'. now split.
  - intros [|j] s'' Hj; simpl.
    + intros [= <-]. exact H.
    + apply Hmin. lia.
Qed.

Lemma findIndex_strings (t : string) (ts : list string) (i : Z) :
  (findIndex_startsWith t (map VStr ts) i = Ok (-1) /\ noMatch ts t)
  \/ exists k, findIndex_startsWith t (map VStr ts) i = Ok (i + Z.of_nat k)
               /\ firstMatch ts t k.
Proof.
  revert i. induction ts as [|s ts IH]; intro i; simpl.
  - left. split; [reflexivity | intros s []].
  - destruct (String.prefix t s) eqn:E.
    + right. exists 0%nat. split; [f_equal; lia | now apply firstMatch_here].
    + destruct (IH (i + 1)) as [[H N] | (k & H & F)].
      * left. split; [exact H|]. intros s' [<- | Hin]; [exact E | now apply N].
      * right. exists (S k). split.
        -- rewrite H. f_equal. lia.
        -- now apply firstMatch_later.
Qed.

Lemma firstMatch_unique (ts : list string) (t : string) (k k' : nat) :
  firstMatch ts t k -> firstMatch ts t k' -> k = k'.
Proof.
  intros ((s & Hs & Ps) & Hmin) ((s' & Hs' & Ps') & Hmin').
  destruct (Nat.lt_trichotomy k k') as [L | [E | G]]; [|exact E|].
  - specialize (Hmin' k s L Hs). congruence.
  - specialize (Hmin k' s' G Hs'). congruence.
Qed.

Lemma firstMatch_not_noMatch (ts : list string) (t : string) (k : nat) :
  firstMatch ts t k -> noMatch ts t -> False.
Proof.
  intros ((s & Hs & Ps) & _) N.
  apply nth_error_In in Hs. specialize (N s Hs). congruence.
Qed.

Lemma firstMatch_bound (ts : list string) (t : string) (k : nat) :
  firstMatch ts t k -> (k < List.length ts)%nat.
Proof.
  intros ((s & Hs & _) & _). apply nth_error_Some. congruence.
Qed.

(** ** The nearest-valid-hour rule *)

(** Two facts about one position of the series that contradict each
    other. *)
Ltac clash :=
  match goal with
  | U : usableAt ?arr ?k = false, U' : usableAt ?arr ?k = true |- _ =>
      congruence
  | H : forall i, _ -> usableAt ?arr i = false,
    U : usableAt ?arr ?j = true |- _ =>
      solve [rewrite H in U by lia; discriminate]
  end.

(** The rule of the specification selects at most one position. *)
Lemma Nearest_functional (ts : list string) (t : string) (arr : list value)
    (o o' : option nat) :
  Nearest ts t arr o -> Nearest ts t arr o' -> o = o'.
Proof.
  intros H H'.
  destruct H as [k F U | k j F U Hj Uj G | k j F B Hj Uj G | j N Hj Uj G | A];
  destruct H' as [k' F' U' | k' j' F' U' Hj' Uj' G' | k' j' F' B' Hj' Uj' G'
                 | j' N' Hj' Uj' G' | A'];
  try (exfalso; eapply firstMatch_not_noMatch; eassumption);
  try (assert (k = k') by (eapply firstMatch_unique; eassumption); subst k');
  try (pose proof (firstMatch_bound _ _ _ F));
  try (pose proof (firstMatch_bound _ _ _ F'));
  try reflexivity;
  try (exfalso; clash);
  try match goal with
  | |- Some ?a = Some ?b =>
      f_equal;
      destruct (Nat.lt_trichotomy a b) as [L | [E | L]];
      [exfalso; clash | exact E | exfalso; clash]
  end.
Qed.

Lemma scanDown_pred (p : Z -> bool) (k : nat) :
  scanDown p (Z.of_nat k - 1) = countDown p k.
Proof.
  unfold scanDown. f_equal. lia.
Qed.

Lemma scanUp_succ (p : Z -> bool) (k n : nat) :
  scanUp p (Z.max (Z.of_nat k + 1) 0) (Z.of_nat n) =
  countUp p (Z.of_nat (S k)) (n - S k).
Proof.
  unfold scanUp. rewrite Z.max_l by lia.
  replace (Z.of_nat k + 1) with (Z.of_nat (S k)) by lia.
  f_equal. lia.
Qed.

Lemma scanUp_start (p : Z -> bool) (n : nat) :
  scanUp p (Z.max (-1 + 1) 0) (Z.of_nat n) = countUp p (Z.of_nat 0) n.
Proof.
  unfold scanUp. simpl. f_equal. lia.
Qed.

(** The position the two loops reach, for a series of string
    timestamps, is the one the rule selects. *)
Lemma loops_select_nearest (ts : list string) (t : string) (arr : list value) :
  exists exactIdx,
    findIndex_startsWith t (map VStr ts) 0 = Ok exactIdx
    /\ exists o, Nearest ts t arr o
        /\ (if hasVal arr exactIdx then Some exactIdx
            else match scanDown (hasVal arr) (exactIdx - 1) with
                 | Some i => Some i
                 | None => scanUp (hasVal arr) (Z.max (exactIdx + 1) 0)
                                  (len (map VStr ts))
                 end) = option_map Z.of_nat o.
Proof.
  unfold len. rewrite length_map.
  destruct (findIndex_strings t ts 0) as [[H N] | (k & H & F)].
  - exists (-1). split; [exact H|].
    rewrite hasVal_negative by lia.
    replace (scanDown (hasVal arr) (-1 - 1)) with (@None Z) by reflexivity.
    rewrite scanUp_start.
    destruct (countUp (hasVal arr) (Z.of_nat 0) (List.length ts)) as [i|] eqn:E.
    + apply countUp_Some in E. destruct E as (m & -> & Hm & Hp & Hgap).
      exists (Some m). split; [|reflexivity].
      rewrite hasVal_usable in Hp.
      apply NearFromStart; auto; try lia.
      intros i Hi. rewrite <- hasVal_usable. apply Hgap. lia.
    + exists None. split; [|reflexivity].
      apply NearNone. intros i Hi. rewrite <- hasVal_usable.
      apply (countUp_None _ _ _ E). lia.
  - exists (Z.of_nat k). split; [rewrite H; f_equal; lia|].
    rewrite hasVal_usable, scanDown_pred, scanUp_succ.
    destruct (usableAt arr k) eqn:U.
    + exists (Some k). split; [now apply NearExact | reflexivity].
    + destruct (countDown (hasVal arr) k) as [i|] eqn:D.
      * apply countDown_Some in D. destruct D as (m & -> & Hm & Hp & Hgap).
        exists (Some m). split; [|reflexivity].
        rewrite hasVal_usable in Hp.
        apply (NearBefore _ _ _ k m); auto.
        intros i Hi. rewrite <- hasVal_usable. now apply Hgap.
      * pose proof (countDown_None _ _ D) as Hbefore.
        assert (B : forall i, (i <= k)%nat -> usableAt arr i = false).
        { intros i Hi. destruct (Nat.eq_dec i k) as [-> | Hne]; [exact U|].
          rewrite <- hasVal_usable. apply Hbefore. lia. }
        destruct (countUp (hasVal arr) (Z.of_nat (S k))
                    (List.length ts - S k)) as [i|] eqn:E.
        -- apply countUp_Some in E. destruct E as (m & -> & Hm & Hp & Hgap).
           exists (Some m). split; [|reflexivity].
           rewrite hasVal_usable in Hp.
           apply (NearAfter _ _ _ k m); auto; try lia.
           intros i Hi. rewrite <- hasVal_usable. apply Hgap. lia.
        -- exists None. split; [|reflexivity].
           apply NearNone. intros i Hi.
           destruct (Nat.le_gt_cases i k) as [L | G]; [now apply B|].
           rewrite <- hasVal_usable. apply (countUp_None _ _ _ E). lia.
Qed.

Lemma findNearestAqi_answer (ts : list string) (t : string) (arr : list value)
    (cat pm25 pm10 : option (list value)) :
  exists o, Nearest ts t arr o
    /\ findNearestAqi (aqSeries ts arr cat pm25 pm10) t = Ok (answer arr o).
Proof.
  destruct (loops_select_nearest ts t arr) as (ix & Hix & o & Hn & Hsel).
  exists o. split; [exact Hn|].
  unfold findNearestAqi, aqSeries. cbn [aq_hourly chain aq_time us_aqi orEmpty].
  rewrite Hix.
  destruct (hasVal arr ix).
  - destruct o as [j|]; [|discriminate]. injection Hsel as ->.
    simpl. now rewrite index_of_nat.
  - destruct (scanDown (hasVal arr) (ix - 1)) as [i|].
    + destruct o as [j|]; [|discriminate]. injection Hsel as ->.
      simpl. now rewrite index_of_nat.
    + rewrite Hsel. destruct o as [j|]; simpl; [|reflexivity].
      now rewrite index_of_nat.
Qed.

(** The labelled variant scans in the same way: it resolves the same
    AQI and differs only in how the category is obtained. *)
Lemma Labelled_same_aqi (aqJson : AqJson) (t : string) :
  resultMap Labelled.info_aqi (Labelled.findNearestAqi aqJson t)
  = resultMap info_aqi (findNearestAqi aqJson t).
Proof.
  unfold Labelled.findNearestAqi, findNearestAqi.
  destruct (findIndex_startsWith t _ 0) as [ix | e]; [|reflexivity].
  destruct (hasVal _ ix); [reflexivity|].
  destruct (scanDown _ _); [reflexivity|].
  destruct (scanUp _ _ _); reflexivity.
Qed.

Lemma Forall_absent_unusable (arr : list value) :
  Forall absent arr -> forall i, usableAt arr i = false.
Proof.
  intros H i. unfold usableAt.
  destruct (nth_in_or_default i arr VUndefined) as [Hin | ->]; [|reflexivity].
  rewrite Forall_forall in H. exact (H _ Hin).
Qed.

(** C3. For a series of timestamps with its AQI array and a target
    prefix, the resolver never raises and answers with the AQI at the
    position the nearest-valid-hour rule selects: the first timestamp
    that starts with the prefix when its value is usable; else the closest
    usable position before it; else the closest usable position after it,
    up to the end of the series (from the start when no timestamp
    matches); else an absent AQI with category "Unknown".  So a usable
    value one hour before an unusable target is the answer, whatever
    comes after the target.  The labelled variant resolves the same
    AQI. *)
Theorem findNearestAqi_nearest (ts : list string) (t : string)
    (arr : list value) (cat pm25 pm10 : option (list value)) :
  let doc := aqSeries ts arr cat pm25 pm10 in
  (exists o, Nearest ts t arr o /\ findNearestAqi doc t = Ok (answer arr o))
  /\ (forall o, Nearest ts t arr o ->
      findNearestAqi doc t = Ok (answer arr o)
      /\ resultMap Labelled.info_aqi (Labelled.findNearestAqi doc t)
         = Ok (info_aqi (answer arr o)))
  /\ (forall k, firstMatch ts t (S k) -> usableAt arr (S k) = false ->
      usableAt arr k = true ->
      findNearestAqi doc t = Ok (answer arr (Some k)))
  /\ (List.length arr = List.length ts -> Forall absent arr ->
      findNearestAqi doc t = Ok (mkAqiInfo VNull "Unknown")).
Proof.
  intro doc.
  destruct (findNearestAqi_answer ts t arr cat pm25 pm10) as (o & Hn & Hf).
  fold doc in Hf.
  assert (Rule : forall o', Nearest ts t arr o' ->
                            findNearestAqi doc t = Ok (answer arr o')).
  { intros o' Hn'. now rewrite (Nearest_functional _ _ _ _ _ Hn' Hn). }
  split; [|split; [|split]].
  - exists o. now split.
  - intros o' Hn'. split; [now apply Rule|].
    rewrite Labelled_same_aqi, (Rule _ Hn'). reflexivity.
  - intros k F U Uk. apply Rule.
    apply (NearBefore _ _ _ (S k) k); auto. intros i Hi. lia.
  - intros _ A. apply (Rule None). apply NearNone.
    intros i _. now apply Forall_absent_unusable.
Qed.

Lemma findNearestAqi_nearest_witness :
  let ts := ["2024-05-01T04:00"; "2024-05-01T05:00"; "2024-05-01T06:00";
             "2024-05-01T07:00"]%string in
  let arr := [VNum (Fin 40); VNum (Fin 42); VNull; VNum (Fin 90)] in
  findNearestAqi (aqSeries ts arr None None None) "2024-05-01T06:00"
  = Ok (mkAqiInfo (VNum (Fin 42)) "Good").
Proof.
  intros ts arr.
  destruct (findNearestAqi_nearest ts "2024-05-01T06:00" arr None None None)
    as (_ & _ & R3 & _).
  apply (R3 1%nat).
  - split.
    + exists "2024-05-01T06:00"%string. split; reflexivity.
    + intros [|[|j]] s Hj; simpl; try (intros [= <-]; reflexivity). lia.
  - reflexivity.
  - reflexivity.
Defined.

(** ** Rounding to a double *)

Local Open Scope Q_scope.

Lemma two_neq0 : ~ 2 == 0.
Proof. discriminate. Qed.

Lemma pow2_pos (e : Z) : 0 < 2 ^ e.
Proof. apply Qpower_0_lt. reflexivity. Qed.

Lemma pow2_le (a b : Z) : (a <= b)%Z -> 2 ^ a <= 2 ^ b.
Proof. intro H. apply Qpower_le_compat_l; [exact H | discriminate]. Qed.

Lemma pow2_lt_inv (a b : Z) : 2 ^ a < 2 ^ b -> (a < b)%Z.
Proof. intro H. apply (Qpower_lt_compat_l_inv 2); [exact H | reflexivity]. Qed.

Lemma pow2_Z (k : Z) : (0 <= k)%Z -> inject_Z (2 ^ k) == 2 ^ k.
Proof. intro H. now rewrite Zpower_Qpower. Qed.

(** [ilog2] is the exponent of the binade that holds its argument. *)
Lemma ilog2_spec (x : Q) :
  0 < x -> 2 ^ ilog2 x <= x /\ x < 2 ^ (ilog2 x + 1).
Proof.
  intro Hx. unfold ilog2.
  destruct x as [n d]. cbn [Qnum Qden].
  assert (Hn : (0 < n)%Z).
  { unfold Qlt in Hx. cbn in Hx. lia. }
  pose proof (Z.log2_spec n Hn) as [Ln Un].
  pose proof (Z.log2_spec (Zpos d) (Pos2Z.is_pos d)) as [Ld Ud].
  pose proof (Z.log2_nonneg n) as Nn.
  pose proof (Z.log2_nonneg (Zpos d)) as Nd.
  set (ln := Z.log2 n) in *. set (ld := Z.log2 (Zpos d)) in *.
  assert (E : n # d == inject_Z n / inject_Z (Zpos d)).
  { apply Qmake_Qdiv. }
  assert (Dpos : 0 < inject_Z (Zpos d)).
  { change 0 with (inject_Z 0). rewrite <- Zlt_Qlt. lia. }
  assert (Up : n # d < 2 ^ (ln - ld + 1)).
  { replace (ln - ld + 1)%Z with ((ln + 1) - ld)%Z by lia.
    rewrite Qpower_minus by exact two_neq0.
    rewrite E. apply Qlt_shift_div_l; [apply pow2_pos|].
    unfold Qdiv. rewrite <- Qmult_assoc, (Qmult_comm (/ _)), Qmult_assoc.
    apply Qlt_shift_div_r; [exact Dpos|].
    rewrite <- !pow2_Z by lia. rewrite <- !inject_Z_mult, <- Zlt_Qlt. nia. }
  assert (Lo : 2 ^ (ln - ld - 1) <= n # d).
  { replace (ln - ld - 1)%Z with (ln - (ld + 1))%Z by lia.
    rewrite Qpower_minus by exact two_neq0.
    rewrite E. apply Qle_shift_div_r; [apply pow2_pos|].
    unfold Qdiv. rewrite <- Qmult_assoc, (Qmult_comm (/ _)), Qmult_assoc.
    apply Qle_shift_div_l; [exact Dpos|].
    rewrite <- !pow2_Z by lia. rewrite <- !inject_Z_mult, <- Zle_Qle. nia. }
  destruct (Qle_bool (2 ^ (ln - ld)) (n # d)) eqn:B.
  - apply Qle_bool_iff in B. split; assumption.
  - split; [exact Lo|].
    replace (ln - ld - 1 + 1)%Z with (ln - ld)%Z by lia.
    apply Qnot_le_lt. intro H. apply Qle_bool_iff in H. congruence.
Qed.

Lemma ilog2_mono (x y : Q) : 0 < x -> x <= y -> (ilog2 x <= ilog2 y)%Z.
Proof.
  intros Hx Hxy.
  destruct (ilog2_spec x Hx) as [Lx _].
  destruct (ilog2_spec y (Qlt_le_trans _ _ _ Hx Hxy)) as [_ Uy].
  assert (H : 2 ^ ilog2 x < 2 ^ (ilog2 y + 1)).
  { eapply Qle_lt_trans; [exact Lx|]. eapply Qle_lt_trans; eassumption. }
  apply pow2_lt_inv in H. lia.
Qed.

Lemma rne_cases (x : Q) : rne x = Qfloor x \/ rne x = (Qfloor x + 1)%Z.
Proof.
  unfold rne. destruct (Qcompare _ _); [destruct (Z.even _)| |]; auto.
Qed.

Lemma rne_Z (n : Z) : rne (inject_Z n) = n.
Proof.
  unfold rne. rewrite Qfloor_Z.
  destruct (Qcompare_spec (inject_Z n - inject_Z n) (1 # 2));
    [exfalso; lra | reflexivity | exfalso; lra].
Qed.

Lemma rne_mono (x y : Q) : x <= y -> (rne x <= rne y)%Z.
Proof.
  intro H. pose proof (Qfloor_resp_le _ _ H) as F.
  destruct (Z.eq_dec (Qfloor x) (Qfloor y)) as [E | N].
  - unfold rne. rewrite <- E.
    assert (R : x - inject_Z (Qfloor x) <= y - inject_Z (Qfloor x)) by lra.
    destruct (Qcompare_spec (x - inject_Z (Qfloor x)) (1 # 2));
      destruct (Qcompare_spec (y - inject_Z (Qfloor x)) (1 # 2));
      destruct (Z.even (Qfloor x)); try lia; exfalso; lra.
  - destruct (rne_cases x) as [-> | ->]; destruct (rne_cases y) as [-> | ->];
      lia.
Qed.

Lemma rne_nonneg (x : Q) : 0 <= x -> (0 <= rne x)%Z.
Proof.
  intro H. rewrite <- (rne_Z 0). now apply rne_mono.
Qed.

Lemma flpos_nonneg (x : Q) : 0 < x -> 0 <= flpos x.
Proof.
  intro H. unfold flpos, ulp.
  apply Qmult_le_0_compat; [|apply Qlt_le_weak, pow2_pos].
  change 0 with (inject_Z 0). rewrite <- Zle_Qle. apply rne_nonneg.
  apply Qle_shift_div_l; [apply pow2_pos | lra].
Qed.

(** A positive rational rounds to a double of its own binade, the
    upper end included. *)
Lemma flpos_upper (x : Q) : 0 < x -> flpos x <= 2 ^ (expo x + 1).
Proof.
  intro H. unfold flpos, ulp.
  destruct (ilog2_spec x H) as [_ U].
  assert (U' : x <= 2 ^ (expo x + 1)).
  { apply Qlt_le_weak. eapply Qlt_le_trans; [exact U|].
    apply pow2_le. unfold expo. lia. }
  assert (R : (rne (x / 2 ^ (expo x - 52)) <= 2 ^ 53)%Z).
  { rewrite <- (rne_Z (2 ^ 53)). apply rne_mono.
    apply Qle_shift_div_r; [apply pow2_pos|].
    rewrite pow2_Z by lia. rewrite <- Qpower_plus by exact two_neq0.
    now replace (53 + (expo x - 52))%Z with (expo x + 1)%Z by lia. }
  rewrite Zle_Qle, pow2_Z in R by lia.
  replace (expo x + 1)%Z with (53 + (expo x - 52))%Z by lia.
  rewrite Qpower_plus by exact two_neq0.
  apply Qmult_le_compat_r; [exact R | apply Qlt_le_weak, pow2_pos].
Qed.

Lemma flpos_lower (x : Q) :
  0 < x -> (-1022 <= ilog2 x)%Z -> 2 ^ expo x <= flpos x.
Proof.
  intros H N. unfold flpos, ulp.
  destruct (ilog2_spec x H) as [L _].
  assert (E : expo x = ilog2 x) by (unfold expo; lia).
  assert (R : (2 ^ 52 <= rne (x / 2 ^ (expo x - 52)))%Z).
  { rewrite <- (rne_Z (2 ^ 52)) at 1. apply rne_mono.
    apply Qle_shift_div_l; [apply pow2_pos|].
    rewrite pow2_Z by lia. rewrite <- Qpower_plus by exact two_neq0.
    replace (52 + (expo x - 52))%Z with (ilog2 x) by lia. exact L. }
  rewrite Zle_Qle, pow2_Z in R by lia.
  replace (expo x) with (52 + (expo x - 52))%Z at 1 by lia.
  rewrite Qpower_plus by exact two_neq0.
  apply Qmult_le_compat_r; [exact R | apply Qlt_le_weak, pow2_pos].
Qed.

Lemma flpos_mono (x y : Q) : 0 < x -> x <= y -> flpos x <= flpos y.
Proof.
  intros Hx Hxy.
  assert (Hy : 0 < y) by (eapply Qlt_le_trans; eassumption).
  pose proof (ilog2_mono x y Hx Hxy) as M.
  destruct (Z.eq_dec (expo x) (expo y)) as [E | N].
  - unfold flpos, ulp. rewrite E.
    apply Qmult_le_compat_r; [|apply Qlt_le_weak, pow2_pos].
    rewrite <- Zle_Qle. apply rne_mono.
    apply Qmult_le_compat_r; [exact Hxy|].
    apply Qlt_le_weak, Qinv_lt_0_compat, pow2_pos.
  - assert (Lt : (expo x < expo y)%Z) by (unfold expo in *; lia).
    eapply Qle_trans; [apply flpos_upper, Hx|].
    eapply Qle_trans; [|apply flpos_lower; [exact Hy | unfold expo in *; lia]].
    apply pow2_le. lia.
Qed.

Lemma Qnum_pos (x : Q) (p : positive) : Qnum x = Zpos p -> 0 < x.
Proof. destruct x as [n d]. cbn. intros ->. reflexivity. Qed.

Lemma Qnum_neg (x : Q) (p : positive) : Qnum x = Zneg p -> x < 0.
Proof. destruct x as [n d]. cbn. intros ->. reflexivity. Qed.

Lemma Qnum_zero (x : Q) : Qnum x = Z0 -> x == 0.
Proof. destruct x as [n d]. cbn. intros ->. reflexivity. Qed.

Lemma fl_sign (x : Q) :
  (0 <= x -> 0 <= fl x) /\ (x <= 0 -> fl x <= 0).
Proof.
  unfold fl. destruct (Qnum x) eqn:E.
  - split; intros _; apply Qle_refl.
  - apply Qnum_pos in E. split; intro H.
    + now apply flpos_nonneg.
    + exfalso. lra.
  - apply Qnum_neg in E. split; intro H.
    + exfalso. lra.
    + assert (0 <= flpos (- x)) by (apply flpos_nonneg; lra). lra.
Qed.

(** Rounding to the nearest double keeps the order. *)
Lemma fl_mono (x y : Q) : x <= y -> fl x <= fl y.
Proof.
  intro H.
  destruct (Qlt_le_dec 0 x) as [Px | Nx].
  - assert (Py : 0 < y) by lra.
    unfold fl. destruct (Qnum x) eqn:Ex;
      [apply Qnum_zero in Ex; exfalso; lra |
      | apply Qnum_neg in Ex; exfalso; lra].
    destruct (Qnum y) eqn:Ey;
      [apply Qnum_zero in Ey; exfalso; lra |
      | apply Qnum_neg in Ey; exfalso; lra].
    now apply flpos_mono.
  - destruct (Qlt_le_dec y 0) as [Ny | Py].
    + unfold fl. destruct (Qnum x) eqn:Ex;
        [apply Qnum_zero in Ex; exfalso; lra
        | apply Qnum_pos in Ex; exfalso; lra |].
      destruct (Qnum y) eqn:Ey;
        [apply Qnum_zero in Ey; exfalso; lra
        | apply Qnum_pos in Ey; exfalso; lra |].
      assert (flpos (- y) <= flpos (- x)) by (apply flpos_mono; lra). lra.
    + destruct (fl_sign x) as [_ Sx]. destruct (fl_sign y) as [Sy _].
      specialize (Sx Nx). specialize (Sy Py). lra.
Qed.

Local Close Scope Q_scope.

(** The double operations against the primitive doubles of the
    runtime: at these operands [fl] of the exact result is the double
    the hardware operation returns, in the normal range, at ties and
    among the subnormals. *)
Lemma fl_agrees_with_primitive :
  forallb (fun xy => Binary64.sameOps (fst xy) (snd xy))
    [ (12.1, 35.4); (0.1, 0.2); (1e-300, 3e-20); (5e-324, 3);
      (16.74, 54); (1e300, 7); (-3.3, 1e-5); (0.6, 12);
      (4.166666666666667, 0.6); (1, 3); (2.2250738585072014e-308, 0.3);
      (32.94, 54); (9007199254740993, 1); (0.5, 9007199254740991);
      (500.4, 350.5); (99, 149.9) ]%float = true.
Proof. vm_compute. reflexivity. Qed.

(** At the top of the range: the largest double and what lies less
    than half a step above it stay finite, half a step above it
    overflows, as the primitive multiplication does. *)
Lemma round64_overflow :
  round64 maxDouble = Fin (fl maxDouble)
  /\ Qeq_bool (fl maxDouble) maxDouble = true
  /\ Qle_bool (Qabs (fl (maxDouble + inject_Z (2 ^ 969)))) maxDouble = true
  /\ round64 (maxDouble + inject_Z (2 ^ 970)) = PosInf
  /\ round64 (- (maxDouble + inject_Z (2 ^ 970))) = NegInf
  /\ Binary64.toQ (1e308 * 10)%float = None
  /\ round64 (Binary64.valueOf 1e308 * 10) = PosInf.
Proof. repeat split; vm_compute; reflexivity. Qed.

(** ** AQI from a concentration *)

Import PmDerived.

(** Decides the next comparison of the goal from the order facts at
    hand. *)
Ltac step_Qle :=
  match goal with
  | |- context [Qle_bool ?x ?y] =>
      let E := fresh "E" in
      destruct (Qle_bool x y) eqn:E;
      [apply Qle_bool_iff in E | apply Qle_bool_false in E];
      try (exfalso; lra)
  end.

Lemma Math_round_bounds (lo hi : Z) (x : Q) :
  (inject_Z lo <= x <= inject_Z hi)%Q -> lo <= Math_round x <= hi.
Proof.
  intros [Lo Hi]. unfold Math_round. split.
  - rewrite <- (Qfloor_Z lo). apply Qfloor_resp_le. lra.
  - assert (H : (inject_Z (Qfloor (x + (1 # 2))) < inject_Z (hi + 1))%Q).
    { eapply Qle_lt_trans; [apply Qfloor_le|].
      rewrite inject_Z_plus. unfold inject_Z at 2. lra. }
    rewrite <- Zlt_Qlt in H. lia.
Qed.

Lemma Math_round_mono (x y : Q) :
  (x <= y)%Q -> Math_round x <= Math_round y.
Proof.
  intro H. unfold Math_round. apply Qfloor_resp_le. lra.
Qed.

Lemma tableOf_cases (pollutant : string) :
  tableOf pollutant = PM10 \/ tableOf pollutant = PM25.
Proof.
  unfold tableOf. destruct (String.eqb pollutant "pm10"); auto.
Qed.

(** Where the breakpoints of the PM2.5 table that are no doubles
    themselves lie. *)
Lemma PM25_breakpoints :
  ((12 < dbl 12.1 /\ dbl 12.1 <= 12.1)
   /\ (35.3 < dbl 35.4 /\ dbl 35.4 < 35.5)
   /\ (55.3 < dbl 55.4 /\ dbl 55.4 < 55.5)
   /\ (150.3 < dbl 150.4 /\ dbl 150.4 < 150.5)
   /\ (250.3 < dbl 250.4 /\ dbl 250.4 < 250.5)
   /\ (350.3 < dbl 350.4 /\ dbl 350.4 < 350.5)
   /\ (500.3 < dbl 500.4 /\ dbl 500.4 < 500.5))%Q.
Proof. repeat split; vm_compute; first [reflexivity | discriminate]. Qed.

(** Brings the facts about the breakpoints into the context. *)
Ltac breakpoints :=
  let B := fresh "B" in
  pose proof PM25_breakpoints as B;
  repeat match goal with
  | H : _ /\ _ |- _ => destruct H
  end.

(** Splits a membership in a table into its seven rows. *)
Ltac rows Hin :=
  unfold PM10, PM25 in Hin; cbn [In] in Hin;
  repeat (destruct Hin as [Hin | Hin]; [|]); [.. | contradiction].

(** Within a row the interpolation never decreases, provided the
    slope, itself a double, is not negative. *)
Lemma interpolate_mono (Cl Ch Il Ih c1 c2 : Q) :
  (0 <= div64 (sub64 Ih Il) (sub64 Ch Cl))%Q -> (c1 <= c2)%Q ->
  (interpolate (Cl, Ch, Il, Ih) c1 <= interpolate (Cl, Ch, Il, Ih) c2)%Q.
Proof.
  intros S H. unfold interpolate, add64, mul64.
  set (s := div64 (sub64 Ih Il) (sub64 Ch Cl)) in *.
  apply fl_mono. apply Qplus_le_l. apply fl_mono.
  rewrite !(Qmult_comm s). apply Qmult_le_compat_r; [|exact S].
  unfold sub64. apply fl_mono. lra.
Qed.

(** Every row of either table: its slope is not negative and the
    rounded interpolation at its two ends is [I_low] and [I_high]. *)
Lemma rows_ends (pollutant : string) (Cl Ch : Q) (Il Ih : Z) :
  In (Cl, Ch, inject_Z Il, inject_Z Ih) (tableOf pollutant) ->
  (0 <= div64 (sub64 (inject_Z Ih) (inject_Z Il)) (sub64 Ch Cl))%Q
  /\ Math_round (interpolate (Cl, Ch, inject_Z Il, inject_Z Ih) Cl) = Il
  /\ Math_round (interpolate (Cl, Ch, inject_Z Il, inject_Z Ih) Ch) = Ih
  /\ 0 <= Il /\ Ih <= 500.
Proof.
  intro Hin.
  destruct (tableOf_cases pollutant) as [T | T]; rewrite T in Hin; clear T;
    rows Hin;
    unfold inject_Z in Hin; injection Hin as <- <- <- <-;
    repeat split; vm_compute; first [reflexivity | discriminate].
Qed.

Lemma rows_shape (pollutant : string) (row : Row) :
  In row (tableOf pollutant) ->
  exists Cl Ch Il Ih, row = (Cl, Ch, inject_Z Il, inject_Z Ih).
Proof.
  intro Hin.
  destruct (tableOf_cases pollutant) as [T | T]; rewrite T in Hin; clear T;
    rows Hin; subst row; eexists _, _, _, _; unfold inject_Z; reflexivity.
Qed.

(** Inside a row the derived index lies between the row's [I_low] and
    [I_high]. *)
Lemma interpolate_range (pollutant : string) (Cl Ch : Q) (Il Ih : Z) (c : Q) :
  In (Cl, Ch, inject_Z Il, inject_Z Ih) (tableOf pollutant) ->
  (Cl <= c <= Ch)%Q ->
  Il <= Math_round (interpolate (Cl, Ch, inject_Z Il, inject_Z Ih) c) <= Ih.
Proof.
  intros Hin [Lo Hi].
  destruct (rows_ends _ _ _ _ _ Hin) as (S & El & Eh & _).
  pose proof (Math_round_mono _ _
                (interpolate_mono Cl Ch _ _ Cl c S Lo)) as L.
  pose proof (Math_round_mono _ _
                (interpolate_mono Cl Ch _ _ c Ch S Hi)) as U.
  lia.
Qed.

(** The rows of a table are disjoint, so the first row that holds a
    concentration is the only one. *)
Lemma lookup_row (pollutant : string) (c Cl Ch Il Ih : Q) :
  In (Cl, Ch, Il, Ih) (tableOf pollutant) ->
  (Cl <= c <= Ch)%Q ->
  lookup (tableOf pollutant) c = Math_round (interpolate (Cl, Ch, Il, Ih) c).
Proof.
  intros Hin [Lo Hi]. breakpoints.
  destruct (tableOf_cases pollutant) as [T | T]; rewrite T in *; clear T;
    rows Hin; injection Hin as <- <- <- <-;
    unfold lookup, PM10, PM25, inRow;
    repeat (step_Qle; cbn [andb]); reflexivity.
Qed.

Lemma lookup_none (table : list Row) (c : Q) :
  (forall row, In row table -> inRow row c = false) ->
  lookup table c = 500.
Proof.
  induction table as [|row rest IH]; intro H; simpl; [reflexivity|].
  rewrite (H row (or_introl eq_refl)). apply IH.
  intros r Hr. apply H. now right.
Qed.

Lemma inRow_iff (Cl Ch Il Ih c : Q) :
  inRow (Cl, Ch, Il, Ih) c = true <-> (Cl <= c <= Ch)%Q.
Proof.
  unfold inRow. rewrite andb_true_iff, !Qle_bool_iff. tauto.
Qed.

Lemma lookup_outside (pollutant : string) (c : Q) :
  (forall Cl Ch Il Ih, In (Cl, Ch, Il, Ih) (tableOf pollutant) ->
                       ~ (Cl <= c <= Ch)%Q) ->
  lookup (tableOf pollutant) c = 500.
Proof.
  intro H. apply lookup_none. intros [[[Cl Ch] Il] Ih] Hin.
  destruct (inRow (Cl, Ch, Il, Ih) c) eqn:E; [|reflexivity].
  apply inRow_iff in E. exfalso. exact (H _ _ _ _ Hin E).
Qed.

(** No row of a table holds a concentration that satisfies [P], when
    [P] contradicts every row's bounds. *)
Ltac no_row Hin :=
  breakpoints; rows Hin; injection Hin as <- <- <- <-; lra.

(** C4. A finite concentration inside a breakpoint range
    [[C_low, C_high]] of its pollutant's table is mapped to
    [round((I_high - I_low) / (C_high - C_low) * (C - C_low) + I_low)],
    each operation being the double operation of the program; PM2.5 of
    12.0 gives 50 and of 12.1 gives 51; a concentration above the last
    breakpoint (500.4 for PM2.5, 604 for PM10) gives 500. *)
Theorem usAqi_interpolation (pollutant : string) (c : Q) :
  (forall Cl Ch Il Ih,
      In (Cl, Ch, Il, Ih) (tableOf pollutant) -> (Cl <= c <= Ch)%Q ->
      usAqiFromConcentration (VNum (Fin c)) pollutant
      = VNum (Fin (inject_Z
                     (Math_round
                        (add64 (mul64 (div64 (sub64 Ih Il) (sub64 Ch Cl))
                                      (sub64 c Cl)) Il)))))
  /\ usAqiFromConcentration (VNum (Fin 12.0)) "pm25" = VNum (Fin 50)
  /\ usAqiFromConcentration (VNum (Fin (dbl 12.1))) "pm25" = VNum (Fin 51)
  /\ ((dbl 500.4 < c)%Q ->
      usAqiFromConcentration (VNum (Fin c)) "pm25" = VNum (Fin 500))
  /\ ((604 < c)%Q ->
      usAqiFromConcentration (VNum (Fin c)) "pm10" = VNum (Fin 500)).
Proof.
  split; [|split; [|split; [|split]]].
  - intros Cl Ch Il Ih Hin Hc. unfold usAqiFromConcentration.
    now rewrite (lookup_row pollutant c Cl Ch Il Ih Hin Hc).
  - vm_compute. reflexivity.
  - vm_compute. reflexivity.
  - intro H. unfold usAqiFromConcentration.
    rewrite lookup_outside; [reflexivity|].
    intros Cl Ch Il Ih Hin [Lo Hi]. change (tableOf "pm25") with PM25 in Hin.
    no_row Hin.
  - intro H. unfold usAqiFromConcentration.
    rewrite lookup_outside; [reflexivity|].
    intros Cl Ch Il Ih Hin [Lo Hi]. change (tableOf "pm10") with PM10 in Hin.
    no_row Hin.
Qed.

Lemma usAqi_interpolation_witness :
  usAqiFromConcentration (VNum (Fin 30)) "pm25" = VNum (Fin 89)
  /\ usAqiFromConcentration (VNum (Fin (dbl 16.74))) "pm10" = VNum (Fin 15)
  /\ usAqiFromConcentration (VNum (Fin 700)) "pm25" = VNum (Fin 500)
  /\ usAqiFromConcentration (VNum (Fin 700)) "pm10" = VNum (Fin 500).
Proof.
  refine (conj _ (conj _ (conj _ _))).
  - destruct (usAqi_interpolation "pm25" 30) as (R1 & _).
    rewrite (R1 (dbl 12.1) (dbl 35.4) 51 100)%Q.
    + vm_compute. reflexivity.
    + right. left. reflexivity.
    + split; vm_compute; discriminate.
  - destruct (usAqi_interpolation "pm10" (dbl 16.74)) as (R1 & _).
    rewrite (R1 0 54 0 50)%Q.
    + vm_compute. reflexivity.
    + left. reflexivity.
    + split; vm_compute; discriminate.
  - destruct (usAqi_interpolation "pm25" 700) as (_ & _ & _ & R4 & _).
    apply R4. vm_compute. reflexivity.
  - destruct (usAqi_interpolation "pm10" 700) as (_ & _ & _ & _ & R5).
    apply R5. qcmp.
Defined.

Lemma lookup_range (table : list Row) (c : Q) :
  Forall (fun row => inRow row c = true ->
                     0 <= Math_round (interpolate row c) <= 500) table ->
  0 <= lookup table c <= 500.
Proof.
  induction 1 as [|row rest Hrow _ IH]; simpl; [lia|].
  destruct (inRow row c) eqn:E; [|exact IH].
  exact (Hrow eq_refl).
Qed.

Lemma rows_bounded (pollutant : string) (c : Q) :
  Forall (fun row => inRow row c = true ->
                     0 <= Math_round (interpolate row c) <= 500)
         (tableOf pollutant).
Proof.
  apply Forall_forall. intros row Hin Hrow.
  destruct (rows_shape _ _ Hin) as (Cl & Ch & Il & Ih & ->).
  apply inRow_iff in Hrow.
  pose proof (interpolate_range _ _ _ _ _ c Hin Hrow) as R.
  destruct (rows_ends _ _ _ _ _ Hin) as (_ & _ & _ & L & U).
  lia.
Qed.

Lemma usAqi_finite (c : Q) (pollutant : string) :
  usAqiFromConcentration (VNum (Fin c)) pollutant
  = VNum (Fin (inject_Z (lookup (tableOf pollutant) c))).
Proof. reflexivity. Qed.

Lemma usAqi_null_iff (v : value) (pollutant : string) :
  usAqiFromConcentration v pollutant = VNull <-> Number_isFinite v = false.
Proof.
  destruct v as [| | b | [| | | q] | s]; simpl; split; intro H;
    try reflexivity; discriminate.
Qed.

(** C10. A finite concentration inside no breakpoint range (a negative
    one, or one in a gap between two consecutive ranges such as PM2.5
    strictly between 12.0 and 12.1 or PM10 strictly between 54 and 55)
    gives 500, as a concentration above the table does; so every finite
    input gives an integer between 0 and 500, and the result is null
    exactly when the input is not finite. *)
Theorem usAqi_outside_rows (v : value) (pollutant : string) :
  (forall c, present v c ->
      (forall Cl Ch Il Ih, In (Cl, Ch, Il, Ih) (tableOf pollutant) ->
                           ~ (Cl <= c <= Ch)%Q) ->
      usAqiFromConcentration v pollutant = VNum (Fin 500))
  /\ (forall c, present v c -> (c < 0)%Q ->
      usAqiFromConcentration v pollutant = VNum (Fin 500))
  /\ (forall c, present v c -> (12.0 < c < dbl 12.1)%Q ->
      usAqiFromConcentration v "pm25" = VNum (Fin 500))
  /\ (forall c, present v c -> (54 < c < 55)%Q ->
      usAqiFromConcentration v "pm10" = VNum (Fin 500))
  /\ (Number_isFinite v = true ->
      exists z, usAqiFromConcentration v pollutant = VNum (Fin (inject_Z z))
                /\ 0 <= z <= 500)
  /\ (usAqiFromConcentration v pollutant = VNull
      <-> Number_isFinite v = false).
Proof.
  assert (Out : forall c p, present v c ->
    (forall Cl Ch Il Ih, In (Cl, Ch, Il, Ih) (tableOf p) ->
                         ~ (Cl <= c <= Ch)%Q) ->
    usAqiFromConcentration v p = VNum (Fin 500)).
  { intros c p -> H. rewrite usAqi_finite, lookup_outside by exact H.
    reflexivity. }
  split; [|split; [|split; [|split; [|split]]]].
  - intros c. apply Out.
  - intros c P Hneg. apply (Out c pollutant P).
    intros Cl Ch Il Ih Hin [Lo Hi].
    destruct (tableOf_cases pollutant) as [T | T]; rewrite T in Hin;
      no_row Hin.
  - intros c P Hgap. apply (Out c "pm25"%string P).
    intros Cl Ch Il Ih Hin [Lo Hi]. change (tableOf "pm25") with PM25 in Hin.
    no_row Hin.
  - intros c P Hgap. apply (Out c "pm10"%string P).
    intros Cl Ch Il Ih Hin [Lo Hi]. change (tableOf "pm10") with PM10 in Hin.
    no_row Hin.
  - destruct v as [| | b | [| | | c] | s]; try discriminate. intros _.
    exists (lookup (tableOf pollutant) c). split; [reflexivity|].
    apply lookup_range, rows_bounded.
  - apply usAqi_null_iff.
Qed.

Lemma usAqi_outside_rows_witness :
  usAqiFromConcentration (VNum (Fin (-1))) "pm25" = VNum (Fin 500)
  /\ usAqiFromConcentration (VNum (Fin (dbl 12.05))) "pm25"
     = VNum (Fin 500)
  /\ usAqiFromConcentration (VNum (Fin 54.5)) "pm10" = VNum (Fin 500)
  /\ usAqiFromConcentration VNull "pm10" = VNull.
Proof.
  refine (conj _ (conj _ (conj _ _))).
  - destruct (usAqi_outside_rows (VNum (Fin (-1))) "pm25") as (_ & R2 & _).
    apply (R2 (-1)%Q eq_refl). qcmp.
  - destruct (usAqi_outside_rows (VNum (Fin (dbl 12.05))) "pm25")
      as (_ & _ & R3 & _).
    apply (R3 (dbl 12.05) eq_refl). split; vm_compute; reflexivity.
  - destruct (usAqi_outside_rows (VNum (Fin 54.5)) "pm10")
      as (_ & _ & _ & R4 & _).
    apply (R4 54.5%Q eq_refl). split; qcmp.
  - destruct (usAqi_outside_rows VNull "pm10") as (_ & _ & _ & _ & _ & R6).
    apply R6. reflexivity.
Defined.

(** C5 (evaluation).  Monotonicity fails at the gaps of the tables and
    below zero: a concentration just under a range's lower breakpoint
    falls through to 500 while the breakpoint itself gives the bottom of
    its range. *)
Theorem usAqi_gap_not_monotone :
  (54.5 <= 55)%Q
  /\ usAqiFromConcentration (VNum (Fin 54.5)) "pm10" = VNum (Fin 500)
  /\ usAqiFromConcentration (VNum (Fin 55)) "pm10" = VNum (Fin 51)
  /\ (12.05 <= 12.1)%Q
  /\ usAqiFromConcentration (VNum (Fin 12.05)) "pm25" = VNum (Fin 500)
  /\ usAqiFromConcentration (VNum (Fin 12.1)) "pm25" = VNum (Fin 51)
  /\ ~ (forall pollutant c1 c2, (c1 <= c2)%Q ->
          lookup (tableOf pollutant) c1 <= lookup (tableOf pollutant) c2).
Proof.
  repeat (split; [first [reflexivity | qcmp]|]).
  intro H. specialize (H "pm10"%string 54.5%Q 55%Q ltac:(qcmp)).
  vm_compute in H. apply H. reflexivity.
Qed.

(** C7. When both concentrations yield an index the PM2.5 one is the
    resolved AQI; the PM10 one is resolved only when the PM2.5
    concentration is not finite; the resolved AQI is absent only when
    both concentrations are not finite. *)
Theorem selectAqi_prefers_pm25 (pm25c pm10c : value) :
  (usAqiFromConcentration pm25c "pm25" <> VNull ->
   usAqiFromConcentration pm10c "pm10" <> VNull ->
   selectAqi pm25c pm10c = usAqiFromConcentration pm25c "pm25")
  /\ (Number_isFinite pm25c = true ->
      selectAqi pm25c pm10c = usAqiFromConcentration pm25c "pm25")
  /\ (Number_isFinite pm25c = false ->
      selectAqi pm25c pm10c = usAqiFromConcentration pm10c "pm10")
  /\ (selectAqi pm25c pm10c <> usAqiFromConcentration pm25c "pm25" ->
      Number_isFinite pm25c = false)
  /\ (selectAqi pm25c pm10c = VNull <->
      Number_isFinite pm25c = false /\ Number_isFinite pm10c = false).
Proof.
  unfold selectAqi.
  destruct pm25c as [| | b | [| | | c] | s];
    destruct pm10c as [| | b' | [| | | c'] | s'];
    cbn [usAqiFromConcentration Number_isFinite];
    repeat split; intros; try reflexivity; try congruence;
    try discriminate; try tauto;
    try match goal with H : _ /\ _ |- _ => destruct H; discriminate end.
Qed.

Lemma selectAqi_prefers_pm25_witness :
  selectAqi (VNum (Fin 10)) (VNum (Fin 300)) = VNum (Fin 42)
  /\ selectAqi VNull (VNum (Fin 300)) = VNum (Fin 173).
Proof.
  split.
  - destruct (selectAqi_prefers_pm25 (VNum (Fin 10)) (VNum (Fin 300)))
      as (R1 & _).
    rewrite R1; [vm_compute; reflexivity | discriminate | discriminate].
  - destruct (selectAqi_prefers_pm25 VNull (VNum (Fin 300)))
      as (_ & _ & R3 & _).
    rewrite (R3 eq_refl). vm_compute. reflexivity.
Defined.

(** ** Upstream failures *)

(** X20. The handler of api/run-verdict.js checks both responses before
    it reads either body: a non-success response ends the invocation
    with a 500 response carrying the error, and nothing is pushed. *)
Lemma handler_fails_fast (toFixed : Q -> Z -> string) (h : Host)
    (wRes : Response WeatherJson) (aqRes : Response AqJson) :
  weather h = Ok wRes -> air h = Ok aqRes ->
  ok wRes = false \/ ok aqRes = false ->
  posts (run (handler toFixed h)) = []
  /\ exists e, responses (run (handler toFixed h)) = [Respond 500 false e].
Proof.
  intros Hw Ha Hbad.
  unfold run, handler, tryCatch, handlerBody, requireTopic, fetchBoth.
  destruct (NTFY_TOPIC h) as [topic|]; [destruct (String.eqb topic "")|];
    unfold bind, throw, ret, emit, lift; simpl;
    try (split; [reflexivity | eexists; reflexivity]).
  rewrite Hw, Ha. simpl.
  destruct (ok wRes); simpl.
  - destruct Hbad as [Hbad | Hbad]; [discriminate|]. rewrite Hbad. simpl.
    split; [reflexivity | eexists; reflexivity].
  - split; [reflexivity | eexists; reflexivity].
Qed.

Lemma handler_fails_fast_witness :
  let h := mkHost (Some "mytopic"%string)
                  ("2024"%string, "05"%string, "01"%string)
                  (Ok (mkResponse false 503 (Ok (mkWeatherJson None))))
                  (Ok (mkResponse true 200 (Ok (mkAqJson None))))
                  (fun _ _ => Ok (mkResponse true 200 (Ok tt))) in
  posts (run (handler toFixed0 h)) = []
  /\ exists e, responses (run (handler toFixed0 h)) = [Respond 500 false e].
Proof.
  intro h.
  apply (handler_fails_fast toFixed0 h
           (mkResponse false 503 (Ok (mkWeatherJson None)))
           (mkResponse true 200 (Ok (mkAqJson None)))
           eq_refl eq_refl).
  left. reflexivity.
Defined.

(** C8 (evaluation).  The first variant never looks at [ok]: with a
    failed weather response whose body has no [hourly] series it goes on
    with null readings, pushes a "Safe to run" message and answers 200. *)
Theorem Legacy_handler_ignores_failure :
  let h := mkHost (Some "mytopic"%string)
                  ("2024"%string, "05"%string, "01"%string)
                  (Ok (mkResponse false 503 (Ok (mkWeatherJson None))))
                  (Ok (mkResponse false 503 (Ok (mkAqJson None))))
                  (fun _ _ => Ok (mkResponse true 200 (Ok tt))) in
  let line := "🟢 Safe to run – NA °C, RH NA%, wind NA km/h, AQI NA"%string in
  run (Legacy.handler (fun _ => NaN) toFixed0 h)
  = [Fetch Weather; Fetch AirQuality; Post "mytopic" line;
     Respond 200 true line]
  /\ run (handler toFixed0 h)
     = [Fetch Weather; Fetch AirQuality;
        ConsoleError "ERROR: Error: weather fetch failed: 503";
        Respond 500 false "Error: weather fetch failed: 503"].
Proof. split; vm_compute; reflexivity. Qed.

(** ** The unguarded variant of the verdict *)

Lemma Legacy_ge_plain (S : string -> number) (v : value) (k : Z) :
  0 < k -> plain v ->
  Legacy.ge S v k = Number_isFinite v && ge_const v k.
Proof.
  intros Hk [-> | [-> | (q & ->)]]; unfold Legacy.ge; simpl;
    try reflexivity.
  apply Qle_bool_false. change (inject_Z 0 < inject_Z k)%Q.
  rewrite <- Zlt_Qlt. exact Hk.
Qed.

(** X19. On the readings of the data model (null, undefined or a finite
    number; the wind may be anything) the unguarded classifier gives the
    verdict of the guarded one. *)
Lemma Legacy_verdict_agrees (S : string -> number) (t h w a : value) :
  plain t -> plain h -> plain a ->
  Legacy.verdictForAsthma S (mkReading t h w a)
  = verdictForAsthma (mkReading t h w a).
Proof.
  intros Pt Ph Pa. unfold Legacy.verdictForAsthma, verdictForAsthma.
  cbn [tempC rh aqi].
  rewrite !(Legacy_ge_plain S a) by (assumption || lia).
  rewrite !(Legacy_ge_plain S t) by (assumption || lia).
  rewrite !(Legacy_ge_plain S h) by (assumption || lia).
  reflexivity.
Qed.

(** Outside the data model they differ: an infinite temperature is a
    number for [>=] and is no reading for [Number.isFinite]. *)
Lemma Legacy_verdict_infinite_temperature (S : string -> number) :
  let r := mkReading (VNum PosInf) VNull VNull (VNum (Fin 60)) in
  Legacy.verdictForAsthma S r = IndoorOnly /\ verdictForAsthma r = Caution.
Proof. split; reflexivity. Qed.

(** C1 (evaluation).  The unguarded classifier breaks the second AQI
    row: with an AQI of 60 and a temperature that is no finite number
    (an infinity, or a string such as "35" that converts to a number at
    least 32) it answers red "Indoor only", where the claim, and the
    guarded classifier, answer yellow "Caution". *)
Theorem Legacy_verdict_unguarded_temperature (S : string -> number) :
  let hot := mkReading (VNum PosInf) VNull VNull (VNum (Fin 60)) in
  let text := mkReading (VStr "35") VNull VNull (VNum (Fin 60)) in
  absent (tempC hot) /\ absent (tempC text)
  /\ present (aqi hot) 60 /\ (51 <= 60 <= 100)%Q
  /\ Legacy.verdictForAsthma S hot = IndoorOnly
  /\ verdictForAsthma hot = Caution
  /\ (S "35"%string = Fin 35 ->
      Legacy.verdictForAsthma S text = IndoorOnly)
  /\ verdictForAsthma text = Caution.
Proof.
  cbv zeta. repeat (split; [first [reflexivity | qcmp]|]).
  split; [|reflexivity].
  intro E. unfold Legacy.verdictForAsthma, Legacy.ge, Legacy.ToNumber.
  cbn [aqi tempC]. rewrite E. reflexivity.
Qed.

(** ** Monotonicity where the tables cover *)

Lemma covered_cases (pollutant : string) (c : Q) :
  covered (tableOf pollutant) c ->
  exists Cl Ch Il Ih,
    In (Cl, Ch, inject_Z Il, inject_Z Ih) (tableOf pollutant)
    /\ (Cl <= c <= Ch)%Q
    /\ lookup (tableOf pollutant) c
       = Math_round (interpolate (Cl, Ch, inject_Z Il, inject_Z Ih) c).
Proof.
  intros (row & Hin & Hrow).
  destruct (rows_shape _ _ Hin) as (Cl & Ch & Il & Ih & ->).
  apply inRow_iff in Hrow.
  exists Cl, Ch, Il, Ih. repeat split; try tauto.
  now apply lookup_row.
Qed.

(** X18. On covered concentrations the derived AQI never decreases,
    within a range and from one range to a later one. *)
Lemma lookup_mono_covered (pollutant : string) (c1 c2 : Q) :
  covered (tableOf pollutant) c1 -> covered (tableOf pollutant) c2 ->
  (c1 <= c2)%Q ->
  lookup (tableOf pollutant) c1 <= lookup (tableOf pollutant) c2.
Proof.
  intros K1 K2 Hle.
  apply covered_cases in K1, K2.
  destruct K1 as (Cl1 & Ch1 & Il1 & Ih1 & In1 & B1 & ->).
  destruct K2 as (Cl2 & Ch2 & Il2 & Ih2 & In2 & B2 & ->).
  pose proof (interpolate_range _ _ _ _ _ _ In1 B1) as R1.
  pose proof (interpolate_range _ _ _ _ _ _ In2 B2) as R2.
  destruct (rows_ends _ _ _ _ _ In1) as (S1 & _).
  pose proof (fun c c' => interpolate_mono Cl1 Ch1 _ _ c c' S1) as M.
  clear S1. destruct B1 as [Lo1 Hi1]. destruct B2 as [Lo2 Hi2]. breakpoints.
  destruct (tableOf_cases pollutant) as [T | T]; rewrite T in In1, In2;
    clear T;
    rows In1; rows In2;
    unfold inject_Z in In1, In2;
    injection In1 as <- <- <- <-; injection In2 as <- <- <- <-;
    first
      [ exfalso; lra
      | lia
      | apply Math_round_mono, M; exact Hle ].
Qed.

(** ** The model against the primitive doubles *)

(** At these concentrations, written as the program would read them,
    the table walk of the model gives what the walk on primitive doubles
    gives; they include the ties and the breakpoints that are no
    doubles. *)
Lemma binary64_agrees :
  Binary64.lookup Binary64.PM25 12.0%float = Some (lookup PM25 12.0)
  /\ Binary64.lookup Binary64.PM25 12.1%float = Some (lookup PM25 (dbl 12.1))
  /\ Binary64.lookup Binary64.PM25 12.05%float
     = Some (lookup PM25 (dbl 12.05))
  /\ Binary64.lookup Binary64.PM25 0.6%float = Some (lookup PM25 (dbl 0.6))
  /\ Binary64.lookup Binary64.PM25 30%float = Some (lookup PM25 30)
  /\ Binary64.lookup Binary64.PM25 150.4%float
     = Some (lookup PM25 (dbl 150.4))
  /\ Binary64.lookup Binary64.PM25 250.4%float
     = Some (lookup PM25 (dbl 250.4))
  /\ Binary64.lookup Binary64.PM25 500.4%float
     = Some (lookup PM25 (dbl 500.4))
  /\ Binary64.lookup Binary64.PM25 700%float = Some (lookup PM25 700)
  /\ Binary64.lookup Binary64.PM10 16.74%float
     = Some (lookup PM10 (dbl 16.74))
  /\ Binary64.lookup Binary64.PM10 32.94%float
     = Some (lookup PM10 (dbl 32.94))
  /\ Binary64.lookup Binary64.PM10 54%float = Some (lookup PM10 54)
  /\ Binary64.lookup Binary64.PM10 54.5%float = Some (lookup PM10 54.5)
  /\ Binary64.lookup Binary64.PM10 55%float = Some (lookup PM10 55)
  /\ Binary64.lookup Binary64.PM10 (-1)%float = Some (lookup PM10 (-1))
  /\ lookup PM10 (dbl 16.74) = 15 /\ lookup PM10 (dbl 32.94) = 30
  /\ lookup PM25 (dbl 0.6) = 3.
Proof. repeat split; vm_compute; reflexivity. Qed.

(** The same on a grid: for every [k] below 630, at the concentration
    [k * 0.97] as the doubles compute it, the two walks agree on both
    tables. *)
Lemma binary64_agrees_on_grid :
  forallb (fun k =>
             let x := (Binary64.ofZ k * 0.97)%float in
             let q := mul64 (inject_Z k) (dbl 0.97) in
             Binary64.sameZ (Binary64.lookup Binary64.PM25 x) (lookup PM25 q)
             && Binary64.sameZ (Binary64.lookup Binary64.PM10 x)
                               (lookup PM10 q))
          (map Z.of_nat (seq 0 630)) = true.
Proof. vm_compute. reflexivity. Qed.

(** ** A complete invocation *)

(** With both sources answering and the 06:00 AQI missing, the handler
    of api/run-verdict.js takes the 05:00 AQI, builds the line and pushes
    it once. *)
Lemma handler_success_example :
  let ts := ["2024-05-01T05:00"; "2024-05-01T06:00"]%string in
  let w := mkWeatherHourly (Some (map VStr ts))
             (Some [VNum (Fin 20); VNum (Fin 29.5)])
             (Some [VNum (Fin 40); VNum (Fin 50)])
             (Some [VNum (Fin 1); VNum (Fin 2.5)]) in
  let h := mkHost (Some "mytopic"%string)
             ("2024"%string, "05"%string, "01"%string)
             (Ok (mkResponse true 200 (Ok (mkWeatherJson (Some w)))))
             (Ok (mkResponse true 200
                    (Ok (aqSeries ts [VNum (Fin 42); VNull] None None None))))
             (fun _ _ => Ok (mkResponse true 200 (Ok tt))) in
  let line :=
    "🌅 Good morning, Nitay! 🏃‍♂️ 🟡 Caution • 🌡️ 30°C • 💧 50% • 💨 9 km/h • 🌫️ AQI 42 (Good)"%string in
  run (handler toFixed0 h)
  = [Fetch Weather; Fetch AirQuality; Post "mytopic" line;
     Respond 200 true line].
Proof. vm_compute. reflexivity. Qed.

(** * Further properties of the code *)

(** ** The verdict as a function of its thresholds *)

Lemma atLeast_weaken (v : value) (k k' : Z) :
  k' <= k -> atLeast v k -> atLeast v k'.
Proof.
  intros Hk (q & P & H). exists q. split; [exact P|].
  eapply Qle_trans; [|exact H]. now rewrite <- Zle_Qle.
Qed.

Lemma verdict_iff (t h w a : value) :
  let v := verdictForAsthma (mkReading t h w a) in
  (v = IndoorOnly <-> atLeast a 101 \/ atLeast t 32)
  /\ (v = SafeToRun <->
      ~ atLeast a 51 /\ ~ atLeast t 28 /\ ~ atLeast h 75)
  /\ (v = Caution <->
      ~ atLeast a 101 /\ ~ atLeast t 32
      /\ (atLeast a 51 \/ atLeast t 28 \/ atLeast h 75)).
Proof.
  cbv zeta. rewrite verdict_table.
  pose proof (atLeast_weaken a 101 51 ltac:(lia)) as Wa.
  pose proof (atLeast_weaken t 32 28 ltac:(lia)) as Wt.
  decide_guard a 101; decide_guard a 51; decide_guard t 32;
    decide_guard t 28; decide_guard h 75; cbn [orb];
    repeat split; intros; try discriminate; try tauto.
Qed.

(** X1. The verdict is red exactly when the AQI is present and at least
    101 or the temperature is present and at least 32; green exactly when
    no reading is present at its lowest threshold (AQI 51, temperature
    28, humidity 75); yellow in the remaining cases. *)
Theorem verdict_characterisation (t h w a : value) :
  let v := verdictForAsthma (mkReading t h w a) in
  (v = IndoorOnly <-> atLeast a 101 \/ atLeast t 32)
  /\ (v = SafeToRun <->
      ~ atLeast a 51 /\ ~ atLeast t 28 /\ ~ atLeast h 75)
  /\ (v = Caution <->
      ~ atLeast a 101 /\ ~ atLeast t 32
      /\ (atLeast a 51 \/ atLeast t 28 \/ atLeast h 75)).
Proof.
  cbv zeta. rewrite verdict_table.
  pose proof (atLeast_weaken a 101 51 ltac:(lia)) as Wa.
  pose proof (atLeast_weaken t 32 28 ltac:(lia)) as Wt.
  decide_guard a 101; decide_guard a 51; decide_guard t 32;
    decide_guard t 28; decide_guard h 75; cbn [orb];
    repeat split; intros; try discriminate; try tauto.
Qed.

Lemma verdict_cases (r : Reading) :
  verdictForAsthma r = IndoorOnly \/ verdictForAsthma r = Caution
  \/ verdictForAsthma r = SafeToRun.
Proof.
  unfold verdictForAsthma.
  repeat match goal with
  | |- context [if ?b then _ else _] => destruct b
  end; auto.
Qed.

Lemma noHigher_atLeast (v1 v2 : value) (k : Z) :
  noHigher v1 v2 -> atLeast v1 k -> atLeast v2 k.
Proof.
  intros [A | (q1 & q2 & P1 & P2 & H)] L.
  - exfalso. exact (absent_not_atLeast _ _ A L).
  - destruct L as (q & P & Hq). unfold present in *. rewrite P1 in P.
    injection P as <-. exists q2. split; [exact P2|].
    eapply Qle_trans; eassumption.
Qed.

(** X2. The verdict never gets milder when readings go up: if the
    temperature, the humidity and the AQI of one reading are each no
    higher than those of another (an absent value counting as lowest),
    its verdict is no stricter.  In particular replacing a reading by an
    absent one never makes the verdict stricter. *)
Theorem verdict_monotone (t1 t2 h1 h2 w1 w2 a1 a2 : value) :
  noHigher t1 t2 -> noHigher h1 h2 -> noHigher a1 a2 ->
  (severity (verdictForAsthma (mkReading t1 h1 w1 a1))
   <= severity (verdictForAsthma (mkReading t2 h2 w2 a2)))%nat.
Proof.
  intros Ht Hh Ha.
  destruct (verdict_iff t1 h1 w1 a1) as (R1 & G1 & Y1).
  destruct (verdict_iff t2 h2 w2 a2) as (R2 & G2 & Y2).
  cbv zeta in *.
  pose proof (fun k => noHigher_atLeast t1 t2 k Ht) as Mt.
  pose proof (fun k => noHigher_atLeast h1 h2 k Hh) as Mh.
  pose proof (fun k => noHigher_atLeast a1 a2 k Ha) as Ma.
  destruct (verdict_cases (mkReading t1 h1 w1 a1)) as [E1 | [E1 | E1]];
    destruct (verdict_cases (mkReading t2 h2 w2 a2)) as [E2 | [E2 | E2]];
    rewrite E1, E2; cbn; try lia; exfalso.
  - (* red against yellow *)
    apply R1 in E1. apply Y2 in E2. destruct E2 as (N101 & N32 & _).
    destruct E1 as [E1 | E1]; [apply N101, Ma | apply N32, Mt]; exact E1.
  - (* red against green *)
    apply R1 in E1. apply G2 in E2. destruct E2 as (N51 & N28 & _).
    destruct E1 as [E1 | E1].
    + apply N51, Ma. now apply (atLeast_weaken a1 101 51).
    + apply N28, Mt. now apply (atLeast_weaken t1 32 28).
  - (* yellow against green *)
    apply Y1 in E1. apply G2 in E2.
    destruct E1 as (_ & _ & [E1 | [E1 | E1]]);
      destruct E2 as (N51 & N28 & N75);
      [apply N51, Ma | apply N28, Mt | apply N75, Mh]; exact E1.
Qed.

Lemma verdict_monotone_witness :
  (severity (verdictForAsthma
               (mkReading VNull (VNum (Fin 80)) VNull (VNum (Fin 40))))
   <= severity (verdictForAsthma
                  (mkReading (VNum (Fin 20)) (VNum (Fin 90)) (VNum (Fin 3))
                             (VNum (Fin 60)))))%nat.
Proof.
  apply verdict_monotone.
  - left. reflexivity.
  - right. exists 80%Q, 90%Q. repeat split. qcmp.
  - right. exists 40%Q, 60%Q. repeat split. qcmp.
Defined.

(** ** Category and verdict together *)

Lemma category_unknown (a : value) :
  aqiCategoryFromNumber a = "Unknown"%string <-> Number_isFinite a = false.
Proof.
  split.
  - destruct a as [| | b | [| | | q] | s]; try reflexivity.
    unfold aqiCategoryFromNumber. cbn [Number_isFinite negb].
    repeat match goal with
    | |- context [if ?b then _ else _] => destruct b
    end; discriminate.
  - intro H. unfold aqiCategoryFromNumber. now rewrite H.
Qed.

(** X3. The category is "Unknown" exactly for a value that is not a
    finite number. *)
Theorem category_unknown_iff (a : value) :
  aqiCategoryFromNumber a = "Unknown"%string <-> Number_isFinite a = false.
Proof.
  split.
  - destruct a as [| | b | [| | | q] | s]; try reflexivity.
    unfold aqiCategoryFromNumber. cbn [Number_isFinite negb].
    repeat match goal with
    | |- context [if ?b then _ else _] => destruct b
    end; discriminate.
  - intro H. unfold aqiCategoryFromNumber. now rewrite H.
Qed.

(** X4. For an integer AQI the category and the verdict go together:
    "Good" means the AQI plays no part in the verdict, "Moderate" means
    the verdict is at least yellow, and any worse category means red. *)
Theorem category_verdict_integer (z : Z) (t h w : value) :
  let a := VNum (Fin (inject_Z z)) in
  let c := aqiCategoryFromNumber a in
  let v := verdictForAsthma (mkReading t h w a) in
  (c = "Good"%string ->
   v = verdictForAsthma (mkReading t h w VNull))
  /\ (c = "Moderate"%string -> v <> SafeToRun)
  /\ (c <> "Good"%string -> c <> "Moderate"%string -> v = IndoorOnly).
Proof.
  cbv zeta.
  destruct (category_thresholds (inject_Z z))
    as (C1 & C2 & C3 & C4 & C5 & C6). cbv zeta in *.
  destruct (verdict_iff t h w (VNum (Fin (inject_Z z))))
    as (R & G & Y). cbv zeta in *.
  assert (A101 : 101 <= z -> atLeast (VNum (Fin (inject_Z z))) 101).
  { intro H. exists (inject_Z z). split; [reflexivity|].
    now rewrite <- Zle_Qle. }
  assert (A51 : 51 <= z -> atLeast (VNum (Fin (inject_Z z))) 51).
  { intro H. exists (inject_Z z). split; [reflexivity|].
    now rewrite <- Zle_Qle. }
  assert (N51 : z <= 50 -> ~ atLeast (VNum (Fin (inject_Z z))) 51).
  { intros H (q & [= <-] & Hq). rewrite <- Zle_Qle in Hq. lia. }
  assert (Qz : forall k, (inject_Z z <= inject_Z k)%Q <-> z <= k).
  { intro k. now rewrite <- Zle_Qle. }
  assert (Qz' : forall k, (inject_Z k < inject_Z z)%Q <-> k < z).
  { intro k. now rewrite <- Zlt_Qlt. }
  destruct (Z_le_gt_dec z 50) as [L50 | G50];
    [|destruct (Z_le_gt_dec z 100) as [L100 | G100]].
  - rewrite (C1 (proj2 (Qz 50) L50)).
    split; [|split].
    + intros _. rewrite !verdict_table.
      pose proof (N51 L50) as N. pose proof N as N'.
      apply guard_not_atLeast in N.
      assert (N101 : ~ atLeast (VNum (Fin (inject_Z z))) 101).
      { intro H. apply N'. now apply (atLeast_weaken _ 101 51). }
      apply guard_not_atLeast in N101. rewrite N, N101. reflexivity.
    + discriminate.
    + congruence.
  - rewrite (C2 (conj (proj2 (Qz' 50) ltac:(lia)) (proj2 (Qz 100) L100))).
    split; [|split].
    + discriminate.
    + intros _ E. apply G in E. destruct E as (N & _). apply N, A51. lia.
    + congruence.
  - split; [|split].
    + intro E. exfalso.
      destruct (Z_le_gt_dec z 150); [rewrite C3 in E|
      destruct (Z_le_gt_dec z 200); [rewrite C4 in E|
      destruct (Z_le_gt_dec z 300); [rewrite C5 in E|rewrite C6 in E]]];
        try discriminate; try (split; [apply Qz' | apply Qz]; lia);
        apply Qz'; lia.
    + intros _ E. apply G in E. destruct E as (N & _). apply N, A51. lia.
    + intros _ _. apply R. left. apply A101. lia.
Qed.

(** ** What the resolver can return *)

Lemma findIndex_range (t : string) (times : list value) (i r : Z) :
  findIndex_startsWith t times i = Ok r ->
  r = -1 \/ i <= r < i + len times.
Proof.
  revert i. induction times as [|v rest IH]; intro i; simpl.
  - intros [= <-]. now left.
  - unfold len in *. cbn [List.length].
    destruct v as [| | b | n | s]; try discriminate.
    destruct (String.prefix t s).
    + intros [= <-]. right. lia.
    + intro H. destruct (IH _ H) as [-> | Hr]; [now left | right; lia].
Qed.

Lemma scanDown_Some_Z (p : Z -> bool) (s i : Z) :
  scanDown p s = Some i -> p i = true /\ 0 <= i <= s.
Proof.
  unfold scanDown. intro H.
  apply countDown_Some in H. destruct H as (m & -> & Hm & Hp & _).
  split; [exact Hp | lia].
Qed.

Lemma scanDown_None_Z (p : Z -> bool) (s : Z) :
  scanDown p s = None -> forall i, 0 <= i <= s -> p i = false.
Proof.
  unfold scanDown. intros H i Hi.
  rewrite <- (Z2Nat.id i) by lia. apply (countDown_None _ _ H). lia.
Qed.

Lemma scanUp_Some_Z (p : Z -> bool) (s e i : Z) :
  0 <= s -> scanUp p s e = Some i -> p i = true /\ s <= i < e.
Proof.
  unfold scanUp. intros Hs H.
  rewrite <- (Z2Nat.id s) in H by lia.
  apply countUp_Some in H. destruct H as (m & -> & Hm & Hp & _).
  split; [exact Hp | lia].
Qed.

Lemma scanUp_None_Z (p : Z -> bool) (s e : Z) :
  0 <= s -> scanUp p s e = None -> forall i, s <= i < e -> p i = false.
Proof.
  unfold scanUp. intros Hs H i Hi.
  rewrite <- (Z2Nat.id s) in H by lia.
  rewrite <- (Z2Nat.id i) by lia. apply (countUp_None _ _ _ H). lia.
Qed.

Lemma hasVal_true (arr : list value) (i : Z) :
  hasVal arr i = true ->
  0 <= i < len arr /\ Number_isFinite (index arr i) = true.
Proof.
  unfold hasVal. rewrite !andb_true_iff, Z.leb_le, Z.ltb_lt. tauto.
Qed.

(** X5. Whatever the document looks like, an answer of the resolver
    carries either a null AQI with category "Unknown" or a finite number
    read from the AQI array at a position inside both arrays; its
    category is always the one derived from that AQI.  With a missing or
    empty time array the answer is null even if the AQI array has
    values. *)
Theorem findNearestAqi_result (aqJson : AqJson) (t : string) (info : AqiInfo) :
  findNearestAqi aqJson t = Ok info ->
  let times := orEmpty (chain (aq_hourly aqJson) aq_time) in
  let arr := orEmpty (chain (aq_hourly aqJson) us_aqi) in
  info_category info = aqiCategoryFromNumber (info_aqi info)
  /\ (info = mkAqiInfo VNull "Unknown"
      \/ (Number_isFinite (info_aqi info) = true
          /\ exists i, 0 <= i < len times /\ 0 <= i < len arr
                       /\ index arr i = info_aqi info))
  /\ (times = [] -> info = mkAqiInfo VNull "Unknown").
Proof.
  intros H times arr. unfold findNearestAqi in H.
  fold times arr in H.
  destruct (findIndex_startsWith t times 0) as [ix | e] eqn:Eix;
    [|discriminate].
  pose proof (findIndex_range _ _ _ _ Eix) as Rix.
  assert (Hit : forall i, hasVal arr i = true -> 0 <= i < len times ->
    let r := mkAqiInfo (index arr i) (aqiCategoryFromNumber (index arr i)) in
    info_category r = aqiCategoryFromNumber (info_aqi r)
    /\ (r = mkAqiInfo VNull "Unknown"
        \/ (Number_isFinite (info_aqi r) = true
            /\ exists j, 0 <= j < len times /\ 0 <= j < len arr
                         /\ index arr j = info_aqi r))
    /\ (times = [] -> r = mkAqiInfo VNull "Unknown")).
  { intros i Hv Hi. apply hasVal_true in Hv. destruct Hv as (Hb & Hf).
    cbn. split; [reflexivity|]. split.
    - right. split; [exact Hf|]. exists i. auto.
    - intros E. rewrite E in Hi. cbn in Hi. lia. }
  destruct (hasVal arr ix) eqn:Hx.
  - injection H as <-. apply Hit; [exact Hx|].
    apply hasVal_true in Hx. lia.
  - destruct (scanDown (hasVal arr) (ix - 1)) as [i|] eqn:D.
    + injection H as <-. apply scanDown_Some_Z in D. destruct D as (Hp & Hi).
      apply Hit; [exact Hp | lia].
    + destruct (scanUp (hasVal arr) (Z.max (ix + 1) 0) (len times))
        as [i|] eqn:U.
      * injection H as <-. apply scanUp_Some_Z in U; [|lia].
        destruct U as (Hp & Hi). apply Hit; [exact Hp | lia].
      * injection H as <-. cbn. auto.
Qed.

Lemma findNearestAqi_result_witness :
  let doc := aqSeries ["2024-05-01T05:00"; "2024-05-01T06:00"]%string
                      [VNum (Fin 42); VNull] None None None in
  let info := mkAqiInfo (VNum (Fin 42)) "Good" in
  info_category info = aqiCategoryFromNumber (info_aqi info)
  /\ (info = mkAqiInfo VNull "Unknown"
      \/ (Number_isFinite (info_aqi info) = true
          /\ exists i, 0 <= i < 2 /\ 0 <= i < 2
                       /\ index [VNum (Fin 42); VNull] i = info_aqi info))
  /\ (map VStr ["2024-05-01T05:00"; "2024-05-01T06:00"]%string = [] ->
      info = mkAqiInfo VNull "Unknown").
Proof.
  intros doc info.
  exact (findNearestAqi_result doc "2024-05-01T06:00" info eq_refl).
Defined.

(** ** When the resolver raises *)

Lemma findIndex_throws_iff (t : string) (times : list value) (i : Z) :
  (exists e, findIndex_startsWith t times i = Throw e)
  <-> exists k v,
        nth_error times k = Some v /\ isString v = false
        /\ forall j, (j < k)%nat ->
             exists s, nth_error times j = Some (VStr s)
                       /\ String.prefix t s = false.
Proof.
  revert i. induction times as [|v rest IH]; intro i; simpl.
  - split.
    + intros (e & H). discriminate.
    + intros ([|k] & v & H & _); discriminate.
  - destruct v as [| | b | n | s];
      try (split;
           [intros _; exists 0%nat; eexists; split; [reflexivity|];
            split; [reflexivity | intros j Hj; lia]
           | intros _; eexists; reflexivity]).
    destruct (String.prefix t s) eqn:E.
    + split; [intros (e & H); discriminate|].
      intros ([|k] & v & Hn & Hs & Hbefore).
      * injection Hn as <-. discriminate.
      * destruct (Hbefore 0%nat ltac:(lia)) as (s' & [= <-] & Hp). congruence.
    + rewrite IH. split.
      * intros (k & v & Hn & Hs & Hbefore). exists (S k), v.
        split; [exact Hn|]. split; [exact Hs|].
        intros [|j] Hj; [exists s; now split | apply Hbefore; lia].
      * intros ([|k] & v & Hn & Hs & Hbefore).
        -- injection Hn as <-. discriminate.
        -- exists k, v. split; [exact Hn|]. split; [exact Hs|].
           intros j Hj. apply (Hbefore (S j)). lia.
Qed.

(** X6. The resolver raises exactly when the time array holds an entry
    that is not a string with only non-matching strings before it;
    nothing in the AQI array can make it raise, and an entry that is not
    a string after the first match is never looked at. *)
Theorem findNearestAqi_raises_iff (aqJson : AqJson) (t : string) :
  let times := orEmpty (chain (aq_hourly aqJson) aq_time) in
  (exists e, findNearestAqi aqJson t = Throw e)
  <-> exists k v,
        nth_error times k = Some v /\ isString v = false
        /\ forall j, (j < k)%nat ->
             exists s, nth_error times j = Some (VStr s)
                       /\ String.prefix t s = false.
Proof.
  intro times. rewrite <- (findIndex_throws_iff t times 0).
  unfold findNearestAqi. fold times.
  destruct (findIndex_startsWith t times 0) as [ix | e].
  - split; intros (e & H); [|discriminate].
    destruct (hasVal _ ix); [discriminate|].
    destruct (scanDown _ _); [discriminate|].
    destruct (scanUp _ _ _); discriminate.
  - split; intros _; exists e; reflexivity.
Qed.

(** ** The nearest PM value *)

Lemma hasVal_out_of_range (arr : list value) (i : Z) :
  len arr <= i -> hasVal arr i = false.
Proof.
  intro H. unfold hasVal.
  destruct (i <? len arr) eqn:E; [apply Z.ltb_lt in E; lia|].
  now rewrite andb_false_r.
Qed.

Lemma index_In (arr : list value) (i : Z) :
  0 <= i < len arr -> In (index arr i) arr.
Proof.
  intro H. unfold index, len in *.
  destruct (i <? 0) eqn:E; [apply Z.ltb_lt in E; lia|].
  apply nth_In. lia.
Qed.

Lemma pickNearest_search (jExact : Z) (arr : list value) :
  (pickNearest jExact arr = VNull <-> forall i, usableAt arr i = false)
  /\ (pickNearest jExact arr = VNull
      \/ (Number_isFinite (pickNearest jExact arr) = true
          /\ In (pickNearest jExact arr) arr)).
Proof.
  assert (Found : forall k, hasVal arr k = true ->
    (index arr k = VNull <-> forall i, usableAt arr i = false)
    /\ (index arr k = VNull
        \/ (Number_isFinite (index arr k) = true /\ In (index arr k) arr))).
  { intros k Hk. pose proof Hk as Hk'. apply hasVal_true in Hk.
    destruct Hk as (Hb & Hf). split.
    - split.
      + intro E. rewrite E in Hf. discriminate.
      + intro A. specialize (A (Z.to_nat k)).
        rewrite <- hasVal_usable, Z2Nat.id in A by lia. congruence.
    - right. split; [exact Hf | now apply index_In]. }
  unfold pickNearest.
  destruct (hasVal arr jExact) eqn:Hx; [now apply Found|].
  destruct (scanDown (hasVal arr) (jExact - 1)) as [k|] eqn:D.
  { apply scanDown_Some_Z in D. now apply Found. }
  destruct (scanUp (hasVal arr) (Z.max (jExact + 1) 0) (len arr))
    as [k|] eqn:U.
  { apply scanUp_Some_Z in U; [|lia]. now apply Found. }
  split; [|now left]. split; [|reflexivity]. intros _ i.
  rewrite <- hasVal_usable.
  destruct (Z.lt_trichotomy (Z.of_nat i) jExact) as [L | [E | G]].
  - apply (scanDown_None_Z _ _ D). lia.
  - now rewrite E.
  - destruct (Z_lt_le_dec (Z.of_nat i) (len arr)) as [In' | Out].
    + apply (scanUp_None_Z _ (Z.max (jExact + 1) 0) (len arr)
               ltac:(lia) U). lia.
    + now apply hasVal_out_of_range.
Qed.

(** X7. [pickNearest] searches the whole array, whatever the exact
    index is: it returns null exactly when the array holds no finite
    number at all, and otherwise a finite number that is an entry of the
    array. *)
Theorem pickNearest_complete (jExact : Z) (arr : list value) :
  (pickNearest jExact arr = VNull <-> forall i, usableAt arr i = false)
  /\ (pickNearest jExact arr = VNull
      \/ (Number_isFinite (pickNearest jExact arr) = true
          /\ In (pickNearest jExact arr) arr)).
Proof.
  assert (Found : forall k, hasVal arr k = true ->
    (index arr k = VNull <-> forall i, usableAt arr i = false)
    /\ (index arr k = VNull
        \/ (Number_isFinite (index arr k) = true /\ In (index arr k) arr))).
  { intros k Hk. pose proof Hk as Hk'. apply hasVal_true in Hk.
    destruct Hk as (Hb & Hf). split.
    - split.
      + intro E. rewrite E in Hf. discriminate.
      + intro A. specialize (A (Z.to_nat k)).
        rewrite <- hasVal_usable, Z2Nat.id in A by lia. congruence.
    - right. split; [exact Hf | now apply index_In]. }
  unfold pickNearest.
  destruct (hasVal arr jExact) eqn:Hx; [now apply Found|].
  destruct (scanDown (hasVal arr) (jExact - 1)) as [k|] eqn:D.
  { apply scanDown_Some_Z in D. now apply Found. }
  destruct (scanUp (hasVal arr) (Z.max (jExact + 1) 0) (len arr))
    as [k|] eqn:U.
  { apply scanUp_Some_Z in U; [|lia]. now apply Found. }
  split; [|now left]. split; [|reflexivity]. intros _ i.
  rewrite <- hasVal_usable.
  destruct (Z.lt_trichotomy (Z.of_nat i) jExact) as [L | [E | G]].
  - apply (scanDown_None_Z _ _ D). lia.
  - now rewrite E.
  - destruct (Z_lt_le_dec (Z.of_nat i) (len arr)) as [In' | Out].
    + apply (scanUp_None_Z _ (Z.max (jExact + 1) 0) (len arr)
               ltac:(lia) U). lia.
    + now apply hasVal_out_of_range.
Qed.

Lemma usableAt_exists_or_none (arr : list value) :
  (exists i, usableAt arr i = true) \/ forall i, usableAt arr i = false.
Proof.
  induction arr as [|v rest IH].
  - right. intros [|i]; reflexivity.
  - destruct (Number_isFinite v) eqn:E.
    + left. exists 0%nat. exact E.
    + destruct IH as [(i & Hi) | Hn].
      * left. exists (S i). exact Hi.
      * right. intros [|i]; [exact E | apply Hn].
Qed.

(** X8. For a time array of strings the derived AQI and its category
    are always produced; the AQI is null, with category "Unknown",
    exactly when neither PM series holds a finite number anywhere, and
    otherwise it is an integer between 0 and 500 with a category other
    than "Unknown". *)
Theorem resolveAqi_result (ts : list string) (t : string)
    (us cat o25 o10 : option (list value)) :
  let doc := mkAqJson (Some (mkAqHourly (Some (map VStr ts)) us cat
                                        o25 o10)) in
  let pm25Arr := orEmpty o25 in
  let pm10Arr := orEmpty o10 in
  exists aqi c,
    resolveAqi doc t = Ok (aqi, c)
    /\ c = aqiCategoryFromNumber aqi
    /\ (aqi = VNull <->
        (forall i, usableAt pm25Arr i = false)
        /\ (forall i, usableAt pm10Arr i = false))
    /\ (aqi = VNull
        \/ exists z, aqi = VNum (Fin (inject_Z z)) /\ 0 <= z <= 500)
    /\ (c = "Unknown"%string <-> aqi = VNull).
Proof.
  intros doc pm25Arr pm10Arr. unfold resolveAqi, doc.
  cbn [aq_hourly chain aq_time pm2_5 pm10].
  fold pm25Arr pm10Arr. cbn [orEmpty].
  destruct (findIndex_strings t ts 0) as [[H _] | (k & H & _)]; rewrite H;
    clear H;
    match goal with
    | |- context [pickNearest ?j pm25Arr] => generalize j; intro jx
    end;
    eexists _, _; (split; [reflexivity|]); (split; [reflexivity|]);
    destruct (pickNearest_search jx pm25Arr) as (N25 & S25);
    destruct (pickNearest_search jx pm10Arr) as (N10 & S10);
    unfold selectAqi;
    destruct (pickNearest jx pm25Arr) as [| | b | [| | | c25] | s25];
    try (destruct S25 as [S25 | (S25 & _)]; discriminate S25);
    destruct (pickNearest jx pm10Arr) as [| | b' | [| | | c10] | s10];
    try (destruct S10 as [S10 | (S10 & _)]; discriminate S10);
    cbn [usAqiFromConcentration Number_isFinite];
    repeat split;
    try (intros; discriminate);
    try (intros; tauto);
    try (apply N25; reflexivity);
    try (apply N10; reflexivity);
    try (intros (A & B); apply N25 in A; discriminate A);
    try (intros (A & B); apply N10 in B; discriminate B);
    try (right; eexists; split; [reflexivity|];
         apply lookup_range, rows_bounded);
    try (now left);
    try (intro E; apply category_unknown in E; discriminate E).
Qed.

(** ** Breakpoints *)

(** X9. At the two ends of every row of either table the derived AQI
    is exactly the row's [I_low] and [I_high]. *)
Theorem breakpoints_exact (pollutant : string) (Cl Ch : Q) (Il Ih : Z) :
  In (Cl, Ch, inject_Z Il, inject_Z Ih) (tableOf pollutant) ->
  lookup (tableOf pollutant) Cl = Il /\ lookup (tableOf pollutant) Ch = Ih.
Proof.
  intro Hin.
  destruct (tableOf_cases pollutant) as [T | T]; rewrite T in *; clear T;
    rows Hin;
    unfold inject_Z in Hin; injection Hin as <- <- <- <-;
    split; vm_compute; reflexivity.
Qed.

Lemma breakpoints_exact_witness :
  lookup (tableOf "pm25") 35.5 = 101
  /\ lookup (tableOf "pm25") (dbl 55.4) = 150.
Proof.
  apply (breakpoints_exact "pm25" 35.5 (dbl 55.4) 101 150).
  right. right. left. reflexivity.
Defined.

Lemma lookup_mono_covered_witness :
  lookup (tableOf "pm10") 54 <= lookup (tableOf "pm10") 60.
Proof.
  apply (lookup_mono_covered "pm10" 54 60).
  - exists (0, 54, 0, 50)%Q. split; [left; reflexivity | reflexivity].
  - exists (55, 154, 51, 100)%Q.
    split; [right; left; reflexivity | reflexivity].
  - qcmp.
Defined.

Lemma Legacy_verdict_agrees_witness :
  Legacy.verdictForAsthma (fun _ => NaN)
    (mkReading (VNum (Fin 30)) VNull (VStr "gusty") VUndefined)
  = verdictForAsthma
      (mkReading (VNum (Fin 30)) VNull (VStr "gusty") VUndefined).
Proof.
  apply Legacy_verdict_agrees.
  - right. right. exists 30%Q. reflexivity.
  - left. reflexivity.
  - right. left. reflexivity.
Defined.

(** ** The variant that accepts every value that is not null *)

Lemma NullChecked_hasVal_plain (arr : list value) (i : Z) :
  Forall plain arr -> NullChecked.hasVal arr i = hasVal arr i.
Proof.
  intro P. unfold NullChecked.hasVal, hasVal.
  destruct ((0 <=? i) && (i <? len arr)) eqn:B; [|reflexivity]. cbn [andb].
  apply andb_true_iff in B. destruct B as (B0 & B1).
  apply Z.leb_le in B0. apply Z.ltb_lt in B1.
  assert (Hin : In (index arr i) arr) by (apply index_In; lia).
  rewrite Forall_forall in P.
  destruct (P _ Hin) as [-> | [-> | (q & ->)]]; reflexivity.
Qed.

Lemma countDown_ext (p p' : Z -> bool) (n : nat) :
  (forall i, p i = p' i) -> countDown p n = countDown p' n.
Proof.
  intro E. induction n as [|n IH]; simpl; [reflexivity|].
  now rewrite E, IH.
Qed.

Lemma countUp_ext (p p' : Z -> bool) (n : nat) (i : Z) :
  (forall j, p j = p' j) -> countUp p i n = countUp p' i n.
Proof.
  intro E. revert i. induction n as [|n IH]; intro i; simpl; [reflexivity|].
  now rewrite E, IH.
Qed.

Lemma NullChecked_category_same (catStr aqiVal : value) :
  NullChecked.aqiCategory catStr aqiVal = Labelled.aqiCategory catStr aqiVal.
Proof.
  unfold NullChecked.aqiCategory, Labelled.aqiCategory.
  destruct (ToBoolean catStr); [reflexivity|].
  destruct aqiVal as [| | b | [| | | q] | s]; reflexivity.
Qed.

(** X10. On an AQI array whose entries are null, undefined or finite
    numbers, the variant that tests [!= null] resolves the same AQI and
    the same category as the variant that tests [Number.isFinite], and
    raises in the same cases. *)
Theorem NullChecked_agrees (aqJson : AqJson) (t : string) :
  Forall plain (orEmpty (chain (aq_hourly aqJson) us_aqi)) ->
  resultMap (fun r => (NullChecked.info_aqi r, NullChecked.info_category r))
            (NullChecked.findNearestAqi aqJson t)
  = resultMap (fun r => (Labelled.info_aqi r, Labelled.info_category r))
              (Labelled.findNearestAqi aqJson t).
Proof.
  intro P. unfold NullChecked.findNearestAqi, Labelled.findNearestAqi.
  set (arr := orEmpty (chain (aq_hourly aqJson) us_aqi)) in *.
  destruct (findIndex_startsWith t _ 0) as [ix | e]; [|reflexivity].
  pose proof (fun i => NullChecked_hasVal_plain arr i P) as E.
  unfold scanDown, scanUp.
  rewrite E, (countDown_ext _ _ _ E), (countUp_ext _ _ _ _ E).
  destruct (hasVal arr ix); cbn [resultMap];
    [now rewrite NullChecked_category_same|].
  destruct (countDown _ _); cbn [resultMap];
    [now rewrite NullChecked_category_same|].
  destruct (countUp _ _ _); cbn [resultMap];
    [now rewrite NullChecked_category_same | reflexivity].
Qed.

Lemma NullChecked_agrees_witness :
  let doc := aqSeries ["2024-05-01T05:00"; "2024-05-01T06:00"]%string
                      [VNum (Fin 120); VNull]
                      (Some [VStr "Unhealthy for Sensitive Groups"; VNull])
                      None None in
  resultMap (fun r => (NullChecked.info_aqi r, NullChecked.info_category r))
            (NullChecked.findNearestAqi doc "2024-05-01T06:00")
  = Ok (VNum (Fin 120), VStr "Unhealthy for Sensitive Groups").
Proof.
  intro doc. rewrite (NullChecked_agrees doc "2024-05-01T06:00").
  - reflexivity.
  - cbn. apply Forall_cons; [right; right; exists 120%Q; reflexivity|].
    apply Forall_cons; [left; reflexivity | apply Forall_nil].
Defined.

Lemma NullChecked_hasVal_true (arr : list value) (i : Z) :
  NullChecked.hasVal arr i = true ->
  0 <= i < len arr /\ NullChecked.notNull (index arr i) = true.
Proof.
  unfold NullChecked.hasVal. rewrite !andb_true_iff, Z.leb_le, Z.ltb_lt.
  tauto.
Qed.

(** X11. An answer of that variant is either all null with category
    "Unknown", or an entry of the AQI array that is not null together
    with the timestamp at the same position of the time array; the entry
    need not be a number. *)
Theorem NullChecked_result (aqJson : AqJson) (t : string)
    (r : NullChecked.AqiInfo) :
  NullChecked.findNearestAqi aqJson t = Ok r ->
  let times := orEmpty (chain (aq_hourly aqJson) aq_time) in
  let arr := orEmpty (chain (aq_hourly aqJson) us_aqi) in
  r = NullChecked.mkAqiInfo VNull (VStr "Unknown") VNull
  \/ exists i, 0 <= i < len times /\ 0 <= i < len arr
               /\ NullChecked.info_aqi r = index arr i
               /\ NullChecked.notNull (index arr i) = true
               /\ NullChecked.info_time r = index times i
               /\ In (NullChecked.info_time r) times.
Proof.
  intros H times arr. unfold NullChecked.findNearestAqi in H.
  fold times arr in H.
  destruct (findIndex_startsWith t times 0) as [ix | e] eqn:Eix;
    [|discriminate].
  pose proof (findIndex_range _ _ _ _ Eix) as Rix.
  assert (Hit : forall i c, NullChecked.hasVal arr i = true ->
    0 <= i < len times ->
    Ok (NullChecked.mkAqiInfo (index arr i) c (index times i)) = Ok r ->
    exists j, 0 <= j < len times /\ 0 <= j < len arr
              /\ NullChecked.info_aqi r = index arr j
              /\ NullChecked.notNull (index arr j) = true
              /\ NullChecked.info_time r = index times j
              /\ In (NullChecked.info_time r) times).
  { intros i c Hv Hi [= <-]. apply NullChecked_hasVal_true in Hv.
    destruct Hv as (Hb & Hn). exists i. cbn.
    repeat split; try tauto; try lia. now apply index_In. }
  destruct (NullChecked.hasVal arr ix) eqn:Hx.
  - right. eapply Hit; [exact Hx | | exact H].
    apply NullChecked_hasVal_true in Hx. lia.
  - destruct (scanDown (NullChecked.hasVal arr) (ix - 1)) as [i|] eqn:D.
    + right. apply scanDown_Some_Z in D. destruct D as (Hp & Hi).
      eapply Hit; [exact Hp | lia | exact H].
    + destruct (scanUp (NullChecked.hasVal arr) (Z.max (ix + 1) 0)
                  (len times)) as [i|] eqn:U.
      * right. apply scanUp_Some_Z in U; [|lia]. destruct U as (Hp & Hi).
        eapply Hit; [exact Hp | lia | exact H].
      * left. now injection H as <-.
Qed.

Lemma NullChecked_result_witness :
  let doc := aqSeries ["2024-05-01T05:00"; "2024-05-01T06:00"]%string
                      [VStr "n/a"; VNull] None None None in
  NullChecked.findNearestAqi doc "2024-05-01T06:00"
  = Ok (NullChecked.mkAqiInfo (VStr "n/a") (VStr "Unknown")
                              (VStr "2024-05-01T05:00"))
  /\ findNearestAqi doc "2024-05-01T06:00" = Ok (mkAqiInfo VNull "Unknown").
Proof.
  intro doc. split; [|reflexivity].
  destruct (NullChecked_result doc "2024-05-01T06:00"
              (NullChecked.mkAqiInfo (VStr "n/a") (VStr "Unknown")
                                     (VStr "2024-05-01T05:00")) eq_refl)
    as [E | _]; [discriminate E | reflexivity].
Defined.

(** ** How an invocation ends *)

(** Splits the goal along the next value the handler inspects: an
    answer of the host, a flag, a settled promise. *)
Ltac crack :=
  repeat (cbn beta iota zeta delta [fst snd app filter isConsoleError];
          match goal with
          | |- context [match ?x with _ => _ end] =>
              lazymatch x with
              | context [match _ with _ => _ end] => fail
              | _ => destruct x eqn:?
              end
          end).

(** X12. Every invocation of the handler of api/run-verdict.js ends
    with exactly one response, as its last event.  It is the 200
    response only after both sources answered with success and one push
    was acknowledged by the endpoint, and then it carries the pushed
    line; in every other case it is a 500 response with the error, after
    at most one push. *)
Theorem handler_response_discipline (toFixed : Q -> Z -> string) (h : Host) :
  let tr := run (handler toFixed h) in
  (exists e, responses tr = [Respond 500 false e]
             /\ List.last tr (Fetch Weather) = Respond 500 false e
             /\ (List.length (posts tr) <= 1)%nat)
  \/ (exists topic line wRes aqRes push,
        tr = [Fetch Weather; Fetch AirQuality; Post topic line;
              Respond 200 true line]
        /\ NTFY_TOPIC h = Some topic
        /\ weather h = Ok wRes /\ ok wRes = true
        /\ air h = Ok aqRes /\ ok aqRes = true
        /\ ntfy h topic line = Ok push /\ ok push = true).
Proof.
  cbv zeta.
  unfold run, handler, tryCatch, handlerBody, requireTopic, fetchBoth,
    jsonBoth, bind, ret, throw, emit, lift.
  crack.
  all: repeat match goal with
       | H : negb _ = false |- _ => apply negb_false_iff in H
       | H : negb _ = true |- _ => apply negb_true_iff in H
       end.
  all: cbn [snd app responses posts filter last List.length].
  all: first
    [ left; eexists; split; [reflexivity | split; [reflexivity | lia]]
    | right; do 5 eexists;
      repeat (split; [first [reflexivity | eassumption]|]);
      first [reflexivity | eassumption] ].
Qed.

(** X13. Every invocation of the first variant's handler starts by
    requesting both sources, whatever the configuration, never writes to
    the console, and ends with exactly one response as its last event:
    the 200 response after one acknowledged push, carrying the pushed
    line, or else a 500 response after at most one push.  The success
    case does not depend on the sources' status. *)
Theorem Legacy_handler_response_discipline
    (S : string -> number) (toFixed : Q -> Z -> string) (h : Host) :
  let tr := run (Legacy.handler S toFixed h) in
  firstn 2 tr = [Fetch Weather; Fetch AirQuality]
  /\ filter isConsoleError tr = []
  /\ ((exists e, responses tr = [Respond 500 false e]
                 /\ List.last tr (Fetch Weather) = Respond 500 false e
                 /\ (List.length (posts tr) <= 1)%nat)
      \/ (exists topic line push,
            tr = [Fetch Weather; Fetch AirQuality; Post topic line;
                  Respond 200 true line]
            /\ NTFY_TOPIC h = Some topic
            /\ ntfy h topic line = Ok push /\ ok push = true)).
Proof.
  cbv zeta.
  unfold run, Legacy.handler, tryCatch, Legacy.handlerBody, requireTopic,
    fetchBoth, jsonBoth, bind, ret, throw, emit, lift.
  crack.
  all: repeat match goal with
       | H : negb _ = false |- _ => apply negb_false_iff in H
       | H : negb _ = true |- _ => apply negb_true_iff in H
       end.
  all: cbn [snd app responses posts filter last List.length firstn
            isConsoleError].
  all: split; [reflexivity | split; [reflexivity|]].
  all: first
    [ left; eexists; split; [reflexivity | split; [reflexivity | lia]]
    | right; do 3 eexists;
      repeat (split; [first [reflexivity | eassumption]|]);
      first [reflexivity | eassumption] ].
Qed.

(** X14. Without a topic (unset or empty) the handler of
    api/run-verdict.js contacts nobody: it only logs the error and
    answers 500. *)
Theorem handler_requires_topic (toFixed : Q -> Z -> string) (h : Host) :
  NTFY_TOPIC h = None \/ NTFY_TOPIC h = Some EmptyString ->
  run (handler toFixed h)
  = [ConsoleError "ERROR: Error: Missing NTFY_TOPIC env var";
     Respond 500 false "Error: Missing NTFY_TOPIC env var"].
Proof.
  intros [E | E]; unfold run, handler, tryCatch, handlerBody, requireTopic,
    bind, throw, emit; rewrite E; reflexivity.
Qed.

Lemma handler_requires_topic_witness :
  run (handler toFixed0
         (mkHost None ("2024"%string, "05"%string, "01"%string)
                 (Ok (mkResponse true 200 (Ok (mkWeatherJson None))))
                 (Ok (mkResponse true 200 (Ok (mkAqJson None))))
                 (fun _ _ => Ok (mkResponse true 200 (Ok tt)))))
  = [ConsoleError "ERROR: Error: Missing NTFY_TOPIC env var";
     Respond 500 false "Error: Missing NTFY_TOPIC env var"].
Proof.
  apply handler_requires_topic. left. reflexivity.
Defined.

(** X15. A missing hour is not an error: when both sources answer with
    success, no weather timestamp starts with the target and the
    resolver finds no AQI, the handler pushes the green verdict with
    every reading printed as NA and answers 200 once the push is
    acknowledged. *)
Theorem handler_missing_hour (toFixed : Q -> Z -> string) (h : Host)
    (topic : string) (wRes : Response WeatherJson) (aqRes : Response AqJson)
    (wJson : WeatherJson) (aqJson : AqJson) (push : Response unit) :
  let line :=
    "🌅 Good morning, Nitay! 🏃‍♂️ 🟢 Safe to run • 🌡️ NA°C • 💧 NA% • 💨 NA km/h • 🌫️ AQI NA"%string in
  NTFY_TOPIC h = Some topic -> topic <> EmptyString ->
  weather h = Ok wRes -> ok wRes = true -> json wRes = Ok wJson ->
  air h = Ok aqRes -> ok aqRes = true -> json aqRes = Ok aqJson ->
  findIndex_startsWith (targetOf h)
    (orEmpty (chain (w_hourly wJson) w_time)) 0 = Ok (-1) ->
  findNearestAqi aqJson (targetOf h) = Ok (mkAqiInfo VNull "Unknown") ->
  ntfy h topic line = Ok push -> ok push = true ->
  run (handler toFixed h)
  = [Fetch Weather; Fetch AirQuality; Post topic line; Respond 200 true line].
Proof.
  intros line Ht Hne Hw Hwok Hwj Ha Haok Haj Hix Hfind Hpush Hpok.
  apply String.eqb_neq in Hne.
  unfold run, handler, tryCatch, handlerBody, requireTopic, fetchBoth,
    jsonBoth, bind, ret, throw, emit, lift.
  rewrite Ht, Hne. cbn beta iota zeta. rewrite Hw, Ha. cbn beta iota zeta.
  rewrite Hwok, Haok. cbn [negb]. cbn beta iota zeta.
  rewrite Hwj, Haj. cbn beta iota zeta.
  rewrite Hix. cbn beta iota zeta.
  change (0 <=? -1) with false. cbn beta iota zeta.
  rewrite Hfind. cbn beta iota zeta.
  change (messageLine toFixed
            (verdictForAsthma
               (mkReading VNull VNull (windOf VNull)
                          (info_aqi (mkAqiInfo VNull "Unknown"))))
            VNull VNull (windOf VNull)
            (info_aqi (mkAqiInfo VNull "Unknown"))
            (info_category (mkAqiInfo VNull "Unknown"))) with line.
  rewrite Hpush. cbn beta iota zeta. rewrite Hpok. reflexivity.
Qed.

Lemma handler_missing_hour_witness :
  let line :=
    "🌅 Good morning, Nitay! 🏃‍♂️ 🟢 Safe to run • 🌡️ NA°C • 💧 NA% • 💨 NA km/h • 🌫️ AQI NA"%string in
  let w := mkWeatherJson (Some (mkWeatherHourly
             (Some [VStr "2024-04-30T06:00"]) (Some [VNum (Fin 35)])
             (Some [VNum (Fin 80)]) (Some [VNum (Fin 2)]))) in
  let h := mkHost (Some "mytopic"%string)
             ("2024"%string, "05"%string, "01"%string)
             (Ok (mkResponse true 200 (Ok w)))
             (Ok (mkResponse true 200 (Ok (mkAqJson None))))
             (fun _ _ => Ok (mkResponse true 200 (Ok tt))) in
  run (handler toFixed0 h)
  = [Fetch Weather; Fetch AirQuality; Post "mytopic" line;
     Respond 200 true line].
Proof.
  intros line w h.
  apply (handler_missing_hour toFixed0 h "mytopic"
           (mkResponse true 200 (Ok w))
           (mkResponse true 200 (Ok (mkAqJson None)))
           w (mkAqJson None) (mkResponse true 200 (Ok tt)));
    try reflexivity.
  discriminate.
Defined.

(** X16. A missing series is an error where a missing hour is not:
    when a weather timestamp matches at index [i] but the document lacks
    the temperature, humidity or wind array, reading index [i] of it
    raises the TypeError that names the index, nothing is pushed and the
    answer is 500 with that error. *)
Theorem handler_missing_series (toFixed : Q -> Z -> string) (h : Host)
    (topic : string) (wRes : Response WeatherJson) (aqRes : Response AqJson)
    (wJson : WeatherJson) (aqJson : AqJson) (wh : WeatherHourly) (i : Z) :
  let e :=
    ("TypeError: Cannot read properties of undefined (reading '" ++ dec i
       ++ "')")%string in
  NTFY_TOPIC h = Some topic -> topic <> EmptyString ->
  weather h = Ok wRes -> ok wRes = true -> json wRes = Ok wJson ->
  air h = Ok aqRes -> ok aqRes = true -> json aqRes = Ok aqJson ->
  w_hourly wJson = Some wh ->
  findIndex_startsWith (targetOf h) (orEmpty (w_time wh)) 0 = Ok i ->
  0 <= i ->
  temperature_2m wh = None \/ relative_humidity_2m wh = None
  \/ wind_speed_10m wh = None ->
  run (handler toFixed h)
  = [Fetch Weather; Fetch AirQuality; ConsoleError ("ERROR: " ++ e);
     Respond 500 false e].
Proof.
  intros e Ht Hne Hw Hwok Hwj Ha Haok Haj Hh Hix Hi Hmiss.
  apply String.eqb_neq in Hne. apply Z.leb_le in Hi.
  unfold run, handler, tryCatch, handlerBody, requireTopic, fetchBoth,
    jsonBoth, bind, ret, throw, emit, lift.
  rewrite Ht, Hne. cbn beta iota zeta. rewrite Hw, Ha. cbn beta iota zeta.
  rewrite Hwok, Haok. cbn [negb]. cbn beta iota zeta.
  rewrite Hwj, Haj. cbn beta iota zeta.
  rewrite Hh. cbn [chain]. rewrite Hix. cbn beta iota zeta. rewrite Hi.
  unfold readHourly, readAt. rewrite Hh.
  destruct (temperature_2m wh) as [ta|]; [|reflexivity].
  destruct (relative_humidity_2m wh) as [ra|]; [|reflexivity].
  destruct (wind_speed_10m wh) as [wa|]; [|reflexivity].
  destruct Hmiss as [M | [M | M]]; discriminate M.
Qed.

Lemma handler_missing_series_witness :
  let e :=
    "TypeError: Cannot read properties of undefined (reading '0')"%string in
  let wh := mkWeatherHourly (Some [VStr "2024-05-01T06:00"])
              (Some [VNum (Fin 21)]) None (Some [VNum (Fin 2)]) in
  let h := mkHost (Some "mytopic"%string)
             ("2024"%string, "05"%string, "01"%string)
             (Ok (mkResponse true 200 (Ok (mkWeatherJson (Some wh)))))
             (Ok (mkResponse true 200 (Ok (mkAqJson None))))
             (fun _ _ => Ok (mkResponse true 200 (Ok tt))) in
  run (handler toFixed0 h)
  = [Fetch Weather; Fetch AirQuality; ConsoleError ("ERROR: " ++ e);
     Respond 500 false e].
Proof.
  intros e wh h.
  apply (handler_missing_series toFixed0 h "mytopic"
           (mkResponse true 200 (Ok (mkWeatherJson (Some wh))))
           (mkResponse true 200 (Ok (mkAqJson None)))
           (mkWeatherJson (Some wh)) (mkAqJson None) wh 0);
    try reflexivity;
    first [discriminate | lia | right; left; reflexivity].
Defined.

(** ** Concentrations and the verdict *)

Lemma Math_round_lower (lo : Z) (x : Q) :
  (inject_Z lo <= x)%Q -> lo <= Math_round x.
Proof.
  intro H. unfold Math_round.
  rewrite <- (Qfloor_Z lo). apply Qfloor_resp_le. lra.
Qed.

Lemma Math_round_upper (hi : Z) (x : Q) :
  (x <= inject_Z hi)%Q -> Math_round x <= hi.
Proof.
  intro H. unfold Math_round.
  assert (L : (inject_Z (Qfloor (x + (1 # 2))) < inject_Z (hi + 1))%Q).
  { eapply Qle_lt_trans; [apply Qfloor_le|].
    rewrite inject_Z_plus. unfold inject_Z at 2. lra. }
  rewrite <- Zlt_Qlt in L. lia.
Qed.

Lemma lookup_PM25_high (c : Q) : (35.5 <= c)%Q -> 101 <= lookup PM25 c.
Proof.
  intro H. breakpoints. unfold lookup, PM25, inRow.
  repeat (step_Qle; cbn [andb]);
    try lia;
    match goal with
    | |- _ <= Math_round (interpolate (?Cl, ?Ch, ?Il, ?Ih) c) =>
        let l := eval vm_compute in (Qfloor Il) in
        let h := eval vm_compute in (Qfloor Ih) in
        pose proof (interpolate_range "pm25" Cl Ch l h c) as R
    end;
    cbv beta in R; unfold inject_Z in R;
    specialize (R ltac:(unfold tableOf, PM25; cbn [String.eqb Ascii.eqb Bool.eqb In];
                        repeat (first [left; reflexivity | right]))
                  ltac:(split; assumption));
    lia.
Qed.

Lemma lookup_PM25_low (c : Q) : (0 <= c <= 12)%Q -> lookup PM25 c <= 50.
Proof.
  intros [Lo Hi]. unfold lookup, PM25, inRow.
  repeat (step_Qle; cbn [andb]).
  pose proof (interpolate_range "pm25" 0.0 12.0 0 50 c
                ltac:(left; reflexivity) ltac:(split; assumption)) as R.
  unfold inject_Z in R. lia.
Qed.

(** X17. In the variant that derives the AQI from concentrations, a
    finite PM2.5 value of 35.5 or more always gives "Indoor only",
    whatever the other readings are, and a PM2.5 value between 0 and 12
    leaves the verdict to temperature and humidity alone; the PM10
    value plays no part as long as PM2.5 is finite. *)
Theorem pm25_verdict (c : Q) (t h w pm10c : value) :
  let a := selectAqi (VNum (Fin c)) pm10c in
  ((35.5 <= c)%Q -> verdictForAsthma (mkReading t h w a) = IndoorOnly)
  /\ ((0 <= c <= 12)%Q ->
      verdictForAsthma (mkReading t h w a)
      = verdictForAsthma (mkReading t h w VNull)).
Proof.
  cbv zeta. unfold selectAqi. cbn [usAqiFromConcentration Number_isFinite].
  change (tableOf "pm25") with PM25. rewrite !verdict_table.
  set (z := lookup PM25 c).
  cbn [Number_isFinite ge_const num_ge andb orb]. split.
  - intro H. pose proof (lookup_PM25_high c H) as Hz. fold z in Hz.
    assert (E : Qle_bool (inject_Z 101) (inject_Z z) = true).
    { apply Qle_bool_iff. now rewrite <- Zle_Qle. }
    now rewrite E.
  - intro H. pose proof (lookup_PM25_low c H) as Hz. fold z in Hz.
    assert (E1 : Qle_bool (inject_Z 101) (inject_Z z) = false).
    { apply Qle_bool_false. rewrite <- Zlt_Qlt. lia. }
    assert (E2 : Qle_bool (inject_Z 51) (inject_Z z) = false).
    { apply Qle_bool_false. rewrite <- Zlt_Qlt. lia. }
    now rewrite E1, E2.
Qed.

Lemma pm25_verdict_witness :
  verdictForAsthma
    (mkReading (VNum (Fin 18)) (VNum (Fin 40)) VNull
               (selectAqi (VNum (Fin 40)) VNull)) = IndoorOnly
  /\ verdictForAsthma
       (mkReading (VNum (Fin 18)) (VNum (Fin 40)) VNull
                  (selectAqi (VNum (Fin 8)) (VNum (Fin 400)))) = SafeToRun.
Proof.
  split.
  - destruct (pm25_verdict 40 (VNum (Fin 18)) (VNum (Fin 40)) VNull VNull)
      as (R1 & _).
    apply R1. qcmp.
  - destruct (pm25_verdict 8 (VNum (Fin 18)) (VNum (Fin 40)) VNull
                (VNum (Fin 400))) as (_ & R2).
    rewrite R2; [reflexivity | split; qcmp].
Defined.
